(** * Feature extraction for absence-seizure detection (Kjaer et al. 2017)

    A shallow embedding of [feature_extraction.py].  Sample vectors are
    lists of real numbers and array arithmetic is exact; the scalar
    post-processing ([np.log], [/], [**]) can leave the reals, so feature
    values live in [fval], the reals extended with the IEEE special values.
    Python exceptions are the [Raise] results of a small error monad.

    The second half of the development follows the code around it: the
    epoch splitting of [generate_features.py] (times and rates as exact
    rationals, the [while] loops with a bound on their iterations), the
    loop of [main_features.py] that pairs consecutive epochs, and
    [bipolar_rereference] and [load_annotations] of [load_edf.py] (from
    the arrays the EDF reader returns, with [re.match] as a parameter). *)

From Stdlib Require Import String Ascii QArith Qround.
From Stdlib Require Import Reals Lra Lia List Arith ZArith Bool.
From Stdlib Require Lqa.
Import ListNotations.

Local Open Scope R_scope.

(** ** Exceptions *)

Inductive exn : Type :=
| ValueError
| IndexError
| LinAlgError.

Inductive result (A : Type) : Type :=
| Ok (a : A)
| Raise (e : exn).

Arguments Ok {A} a.
Arguments Raise {A} e.

Definition bind {A B : Type} (m : result A) (f : A -> result B) : result B :=
  match m with
  | Ok a => f a
  | Raise e => Raise e
  end.

Notation "x <- m ;; k" := (bind m (fun x => k))
  (at level 61, m at next level, right associativity).

(** ** Feature values *)

Inductive fval : Type :=
| Fin (r : R)
| PInf
| NInf
| NaN.

(** [np.log] on a real scalar: a warning, not an exception, outside the
    domain. *)
Definition np_log (x : R) : fval :=
  if Rlt_dec 0 x then Fin (ln x)
  else if Req_dec_T x 0 then NInf
  else NaN.

(** [x / y] on numpy scalars. *)
Definition np_div (x y : R) : fval :=
  if Req_dec_T y 0 then
    if Req_dec_T x 0 then NaN
    else if Rlt_dec 0 x then PInf else NInf
  else Fin (x / y).

(** [x ** y] for an exponent [0 < y < 1] (the code uses 0.1, 0.5, 0.25). *)
Definition np_pow (x : fval) (y : R) : fval :=
  match x with
  | Fin r =>
      if Rlt_dec 0 r then Fin (Rpower r y)
      else if Req_dec_T r 0 then Fin 0
      else NaN
  | PInf => PInf
  | NInf => PInf
  | NaN => NaN
  end.

(** [np.sqrt] on a real scalar. *)
Definition np_sqrt (x : R) : fval :=
  if Rle_dec 0 x then Fin (sqrt x) else NaN.

(** [np.var] of a zero-dimensional value: the mean is the value itself. *)
Definition np_var_scalar (x : fval) : fval :=
  match x with
  | Fin r => Fin ((r - r) * (r - r))
  | _ => NaN
  end.

(** ** Array primitives *)

Definition np_sum (l : list R) : R := fold_right Rplus 0 l.

Definition np_square (l : list R) : list R := map (fun x => x * x) l.

Definition np_abs (l : list R) : list R := map Rabs l.

Definition scale (k : R) (l : list R) : list R := map (Rmult k) l.

(** Sum of [f i] over [i < n]. *)
Definition sum_upto (n : nat) (f : nat -> R) : R := np_sum (map f (seq 0 n)).

(** [np.convolve(a, v)], mode ['full']: [c[k] = sum_i a[i] * v[k - i]]. *)
Definition conv_at (a v : list R) (k : nat) : R :=
  sum_upto (length a)
    (fun i => if (i <=? k)%nat then nth i a 0 * nth (k - i) v 0 else 0).

Definition np_convolve (a v : list R) : result (list R) :=
  match a, v with
  | [], _ => Raise ValueError
  | _, [] => Raise ValueError
  | _, _ => Ok (map (conv_at a v) (seq 0 (length a + length v - 1)))
  end.

(** [np.correlate(a, v)], mode ['valid']: [c[k] = sum_i a[k + i] * v[i]]
    when [a] is at least as long as [v]; otherwise the arguments are
    swapped and the output reversed. *)
Definition corr_at (a v : list R) (k : nat) : R :=
  sum_upto (length v) (fun i => nth (k + i) a 0 * nth i v 0).

Definition np_correlate (a v : list R) : result (list R) :=
  match a, v with
  | [], _ => Raise ValueError
  | _, [] => Raise ValueError
  | _, _ =>
      if (length v <=? length a)%nat
      then Ok (map (corr_at a v) (seq 0 (length a - length v + 1)))
      else Ok (rev (map (corr_at v a) (seq 0 (length v - length a + 1))))
  end.

(** Python indexing [l[i]] for [i >= 0]. *)
Definition index {A : Type} (l : list A) (i : nat) : result A :=
  match nth_error l i with
  | Some x => Ok x
  | None => Raise IndexError
  end.

(** [del l[i]]. *)
Definition del {A : Type} (l : list A) (i : nat) : result (list A) :=
  if (i <? length l)%nat then Ok (firstn i l ++ skipn (S i) l)
  else Raise IndexError.

(** ** [scipy.signal.firwin] *)

Fixpoint pairs (l : list R) : list (R * R) :=
  match l with
  | a :: b :: t => (a, b) :: pairs t
  | _ => []
  end.

(** The pass bands, as fractions of the Nyquist frequency: 0 is put in
    front when [pass_zero] is set, 1 behind when the count then is odd, and
    consecutive pairs are the edges of the bands that are let through. *)
Definition firwin_bands (cutoff : list R) (pass_zero : bool) (nyq : R)
  : list (R * R) :=
  let c := map (fun f => f / nyq) cutoff in
  let pass_nyquist := xorb (Nat.odd (length c)) pass_zero in
  pairs ((if pass_zero then [0] else []) ++ c ++
         (if pass_nyquist then [1] else [])).

Fixpoint inside_unit (c : list R) : bool :=
  match c with
  | [] => true
  | x :: t =>
      if Rlt_dec 0 x then if Rlt_dec x 1 then inside_unit t else false
      else false
  end.

Fixpoint increasing (c : list R) : bool :=
  match c with
  | x :: ((y :: _) as t) => if Rlt_dec x y then increasing t else false
  | _ => true
  end.

(** [np.sinc]. *)
Definition sinc (x : R) : R :=
  if Req_dec_T x 0 then 1 else sin (PI * x) / (PI * x).

(** The symmetric Hamming window of [M] points. *)
Definition hamming (M n : nat) : R :=
  if (M <=? 1)%nat then 1
  else 54 / 100 - 46 / 100 * cos (2 * PI * INR n / (INR M - 1)).

Definition firwin (numtaps : nat) (cutoff : list R) (pass_zero : bool)
  (fs : R) : result (list R) :=
  let nyq := fs / 2 in
  let c := map (fun f => f / nyq) cutoff in
  let pass_nyquist := xorb (Nat.odd (length c)) pass_zero in
  match c with
  | [] => Raise ValueError
  | _ =>
      if negb (inside_unit c) then Raise ValueError
      else if negb (increasing c) then Raise ValueError
      else if pass_nyquist && Nat.even numtaps then Raise ValueError
      else
        let bands := firwin_bands cutoff pass_zero nyq in
        let alpha := (INR numtaps - 1) / 2 in
        let m := fun n => INR n - alpha in
        let h := fun n =>
          np_sum (map (fun b => snd b * sinc (snd b * m n)
                                - fst b * sinc (fst b * m n)) bands)
          * hamming numtaps n in
        let scale_frequency :=
          match bands with
          | [] => 0
          | (lo, hi) :: _ =>
              if Req_dec_T lo 0 then 0
              else if Req_dec_T hi 1 then 1
              else (lo + hi) / 2
          end in
        let s := sum_upto numtaps
                   (fun n => h n * cos (PI * m n * scale_frequency)) in
        Ok (map (fun n => h n / s) (seq 0 numtaps))
  end.

(** ** [pywt]: the discrete wavelet transform *)

Record Wavelet : Type := { dec_lo : list R; dec_hi : list R }.

Definition dec_len (w : Wavelet) : nat := length (dec_lo w).

(** [pywt.dwt_max_level]. *)
Definition dwt_max_level (data_len filter_len : nat) : result nat :=
  if (filter_len <? 2)%nat then Raise ValueError
  else if (data_len <? filter_len - 1)%nat then Ok 0%nat
  else Ok (Nat.log2 (data_len / (filter_len - 1))).

(** Periodization mode pads an odd-length signal with its last sample. *)
Definition pad_even (x : list R) : list R :=
  if Nat.odd (length x) then x ++ [last x 0] else x.

(** Output sample [o] of the down-sampling periodized convolution: the
    filter is applied at position [F/2 + 2 o] of the periodic signal. *)
Definition per_coeff (f xp : list R) (o : nat) : R :=
  sum_upto (length f) (fun j =>
    nth j f 0 *
    nth (Z.to_nat ((Z.of_nat (length f / 2 + 2 * o) - Z.of_nat j)
                   mod Z.of_nat (length xp))) xp 0).

(** [pywt.dwt] in periodization mode: approximation and detail. *)
Definition dwt (w : Wavelet) (x : list R) : list R * list R :=
  let xp := pad_even x in
  let outs := seq 0 (length xp / 2) in
  (map (per_coeff (dec_lo w) xp) outs, map (per_coeff (dec_hi w) xp) outs).

(** The loop of [pywt.wavedec]; [acc] holds the details found so far,
    the latest in front, which is the order after the final [reverse]. *)
Fixpoint wavedec_loop (w : Wavelet) (level : nat) (a : list R)
  (acc : list (list R)) : list (list R) :=
  match level with
  | O => a :: acc
  | S l => let (a', d) := dwt w a in wavedec_loop w l a' (d :: acc)
  end.

(** [pywt.wavedec(data, wavelet, mode, level)] in periodization mode.
    The program calls [pywt.wavedec(data, 'db4', 5)]: the third positional
    parameter is [mode], and 5 is the integer code of the periodization
    mode; [level] keeps its default [None], which stands for
    [dwt_max_level]. *)
Definition wavedec (w : Wavelet) (level : option nat) (data : list R)
  : result (list (list R)) :=
  lv <- match level with
        | Some l => Ok l
        | None => dwt_max_level (length data) (dec_len w)
        end ;;
  Ok (wavedec_loop w lv data []).

(** ** [scipy.signal.hilbert] and the complex variance *)

Definition cplx : Type := (R * R)%type.

Definition Cadd (a b : cplx) : cplx := (fst a + fst b, snd a + snd b).
Definition Csub (a b : cplx) : cplx := (fst a - fst b, snd a - snd b).
Definition Cmul (a b : cplx) : cplx :=
  (fst a * fst b - snd a * snd b, fst a * snd b + snd a * fst b).
Definition Cscal (k : R) (a : cplx) : cplx := (k * fst a, k * snd a).
Definition Cnorm2 (a : cplx) : R := fst a * fst a + snd a * snd a.
Definition Csum (l : list cplx) : cplx := fold_right Cadd (0, 0) l.

(** [exp(i * t)]. *)
Definition cis (t : R) : cplx := (cos t, sin t).

Definition dft (x : list R) (k : nat) : cplx :=
  let N := length x in
  Csum (map (fun n =>
               Cscal (nth n x 0) (cis (- (2 * PI * INR k * INR n / INR N))))
            (seq 0 N)).

(** The one-sided spectrum weights of the analytic signal. *)
Definition hilbert_h (N k : nat) : R :=
  if Nat.even N then
    if (k =? 0)%nat || (k =? N / 2)%nat then 1
    else if (k <? N / 2)%nat then 2 else 0
  else
    if (k =? 0)%nat then 1
    else if (k <? (N + 1) / 2)%nat then 2 else 0.

Definition hilbert (x : list R) : result (list cplx) :=
  let N := length x in
  match N with
  | O => Raise ValueError
  | _ =>
      Ok (map (fun n =>
                 Cscal (/ INR N)
                   (Csum (map (fun k =>
                                 Cmul (Cscal (hilbert_h N k) (dft x k))
                                      (cis (2 * PI * INR k * INR n / INR N)))
                              (seq 0 N))))
              (seq 0 N))
  end.

Definition np_mean (l : list R) : R := np_sum l / INR (length l).

(** [np.var] of a non-empty complex array: the mean of [|z - mean z|^2]. *)
Definition np_var_complex (z : list cplx) : R :=
  let mu := Cscal (/ INR (length z)) (Csum z) in
  np_sum (map (fun c => Cnorm2 (Csub c mu)) z) / INR (length z).

(** ** Matrices and [scipy.spatial.distance.mahalanobis] *)

Record matrix : Type :=
  { nrows : nat; ncols : nat; entry : nat -> nat -> R }.

Definition np_outer (u v : list R) : matrix :=
  {| nrows := length u; ncols := length v;
     entry := fun i j => nth i u 0 * nth j v 0 |}.

Definition np_eye (n : nat) : matrix :=
  {| nrows := n; ncols := n;
     entry := fun i j => if (i =? j)%nat then 1 else 0 |}.

(** Array subtraction with numpy's broadcasting of a one-element array. *)
Definition np_sub (u v : list R) : result (list R) :=
  if (length u =? length v)%nat
  then Ok (map (fun p => fst p - snd p) (combine u v))
  else match u, v with
       | [x], _ => Ok (map (fun y => x - y) v)
       | _, [y] => Ok (map (fun x => x - y) u)
       | _, _ => Raise ValueError
       end.

(** [np.dot] of a vector and a matrix, and of two vectors. *)
Definition dot_vm (d : list R) (M : matrix) : result (list R) :=
  if (length d =? nrows M)%nat
  then Ok (map (fun j => sum_upto (nrows M)
                           (fun i => nth i d 0 * entry M i j))
               (seq 0 (ncols M)))
  else Raise ValueError.

Definition dot_vv (a b : list R) : result R :=
  if (length a =? length b)%nat
  then Ok (sum_upto (length a) (fun i => nth i a 0 * nth i b 0))
  else Raise ValueError.

Definition mahalanobis (u v : list R) (VI : matrix) : result fval :=
  delta <- np_sub u v ;;
  w <- dot_vm delta VI ;;
  m <- dot_vv w delta ;;
  Ok (np_sqrt m).

(** [try: m except e: handler]. *)
Definition try_except {A : Type} (m : result A) (e : exn) (handler : result A)
  : result A :=
  match m with
  | Ok a => Ok a
  | Raise e' =>
      match e, e' with
      | ValueError, ValueError
      | IndexError, IndexError
      | LinAlgError, LinAlgError => handler
      | _, _ => Raise e'
      end
  end.

(** ** The program: [feature_extraction] *)

Section FeatureExtraction.

(** The decomposition filters of ['db4'], tabulated constants of pywt. *)
Variable db4 : Wavelet.

(** [np.linalg.inv] on the entries of an [n] by [n] matrix: the entries
    of the inverse, or [None] when LAPACK reports a singular matrix. *)
Variable lapack_inv : nat -> (nat -> nat -> R) -> option (nat -> nat -> R).

Definition np_linalg_inv (M : matrix) : result matrix :=
  if (nrows M =? ncols M)%nat then
    match lapack_inv (nrows M) (entry M) with
    | Some e => Ok {| nrows := nrows M; ncols := nrows M; entry := e |}
    | None => Raise LinAlgError
    end
  else Raise LinAlgError.

Definition extract_log_sum_wavelets (data : list R) : result (list fval) :=
  coefficients <- wavedec db4 None data ;;
  let wavelet_feat :=
    map (fun x => np_log (np_sum (np_abs x))) (tl coefficients) in
  del wavelet_feat 1.

Definition extract_power (data_bp1_30 data_bp3_12 : list R) : list fval :=
  let power1_30 := np_sum (np_square data_bp1_30) in
  let power3_12 := np_sum (np_square data_bp3_12) in
  [np_pow (Fin power1_30) (1 / 10); np_div power3_12 power1_30].

Definition extract_correlate (data data1 data_bp1_30 data_bp3_12 : list R)
  : result (list fval) :=
  c1 <- np_correlate data data1 ;;
  x1 <- index c1 0 ;;
  c2 <- np_correlate data_bp1_30 data_bp3_12 ;;
  x2 <- index c2 0 ;;
  Ok [np_pow (Fin x1) (1 / 2); Fin (x2 * x2)].

Definition extract_phase (data : list R) : result fval :=
  let mu := np_mean data in
  z <- hilbert (map (fun x => x - mu) data) ;;
  Ok (Fin (np_var_complex z)).

Definition extract_mahalanobis (data_bp1_30 data_bp3_12 : list R)
  : result fval :=
  let cov_mat := np_outer data_bp1_30 data_bp3_12 in
  inv_cov <- try_except (np_linalg_inv cov_mat) LinAlgError
               (Ok (np_eye (length data_bp1_30))) ;;
  d <- mahalanobis data_bp1_30 data_bp3_12 inv_cov ;;
  Ok (np_pow (np_var_scalar d) (1 / 4)).

Definition feature_extraction (data data1 : list R)
  : result (list (list fval)) :=
  k1_30 <- firwin 467 [1; 30] true 128 ;;
  data_bp1_30 <- np_convolve data k1_30 ;;
  k3_12 <- firwin 467 [3; 12] true 128 ;;
  data_bp3_12 <- np_convolve data k3_12 ;;
  w <- extract_log_sum_wavelets data ;;
  let p := extract_power data_bp1_30 data_bp3_12 in
  c <- extract_correlate data data1 data_bp1_30 data_bp3_12 ;;
  ph <- extract_phase data ;;
  d <- extract_mahalanobis data_bp1_30 data_bp3_12 ;;
  Ok [w ++ p ++ c ++ [ph] ++ [d]].

End FeatureExtraction.

(** * Epoch splitting: [generate_features.py]

    Times, sampling rates and percentages are exact rationals: the loop
    counter [i] of the program becomes a float after its first increment,
    and the model follows it without rounding.  The program rounds
    [overlap*duration/100], the step and every sum to float64, so the two
    counters agree where these values are held exactly, as whole numbers
    are; with a step such as 0.2 s ([2 - 90*2/100] is
    [0.19999999999999996] in float64) the counter of the program drifts
    and its windows can start one sample before the windows of
    [epoch_loop].  The theorems on the position of the windows are stated
    for whole numbers of seconds and of samples per second. *)

(** [int(x)]: truncation towards zero. *)
Definition py_int (x : Q) : Z :=
  if Qle_bool 0 x then Qfloor x else Qceiling x.

(** A bound of a Python slice on a sequence of [n] items: a negative bound
    counts from the end, and both ends are clipped. *)
Definition slice_bound (n : nat) (a : Z) : nat :=
  if (a <? 0)%Z then Z.to_nat (a + Z.of_nat n) else Nat.min (Z.to_nat a) n.

(** [l[a:b]]. *)
Definition py_slice {A : Type} (l : list A) (a b : Z) : list A :=
  let lo := slice_bound (length l) a in
  let hi := slice_bound (length l) b in
  firstn (hi - lo) (skipn lo l).

(** The [while] loop of [split_data] and of [split_annotations]:
    [body a b] is what is appended for the window
    [int(i*fs):int((i+duration)*fs)],
    and [step] is added to [i].  The result is [None] when [fuel]
    iterations do not end the loop. *)
Fixpoint epoch_loop {B : Type} (fuel len : nat) (fs duration step : Q)
  (body : Z -> Z -> B) (i : Q) : option (list B) :=
  match fuel with
  | O => None
  | S f =>
      if Qle_bool ((i + duration) * fs) (inject_Z (Z.of_nat len)) then
        match epoch_loop f len fs duration step body (i + step) with
        | Some rest =>
            Some (body (py_int (i * fs)) (py_int ((i + duration) * fs))
                  :: rest)
        | None => None
        end
      else Some []
  end.

Fixpoint split_data {A : Type} (fuel : nat) (data : list (list A))
  (fs duration overlap : Q) : option (list (list (list A))) :=
  match data with
  | [] => Some []
  | channel :: rest =>
      match epoch_loop fuel (length channel) fs duration
              (duration - overlap * duration / 100) (py_slice channel) 0 with
      | Some e =>
          match split_data fuel rest fs duration overlap with
          | Some es => Some (e :: es)
          | None => None
          end
      | None => None
      end
  end.

(** [mask[i] = True] on a numpy array: an index in [-n, 0) counts from the
    end, one outside [-n, n) raises. *)
Definition set_true (mask : list bool) (i : Z) : result (list bool) :=
  let n := Z.of_nat (length mask) in
  if ((0 <=? i) && (i <? n))%Z then
    Ok (firstn (Z.to_nat i) mask ++ true :: skipn (S (Z.to_nat i)) mask)
  else if ((- n <=? i) && (i <? 0))%Z then
    Ok (firstn (Z.to_nat (i + n)) mask
        ++ true :: skipn (S (Z.to_nat (i + n))) mask)
  else Raise IndexError.

(** [for i in range(start, start + count): mask[i] = True]. *)
Fixpoint mark_range (mask : list bool) (start : Z) (count : nat)
  : result (list bool) :=
  match count with
  | O => Ok mask
  | S c => m <- set_true mask start ;; mark_range m (start + 1)%Z c
  end.

Fixpoint mark_events (mask : list bool) (events : list (list Q)) (fs : Q)
  : result (list bool) :=
  match events with
  | [] => Ok mask
  | event :: rest =>
      e0 <- index event 0 ;;
      e1 <- index event 1 ;;
      let a := py_int (e0 * fs) in
      let b := py_int (e1 * fs) in
      m <- mark_range mask a (Z.to_nat (b - a)) ;;
      mark_events m rest fs
  end.

Definition _eventList2Mask (events : list (list Q)) (totalLen : nat) (fs : Q)
  : result (list bool) :=
  mark_events (repeat false totalLen) events fs.

(** [np.sum] of a boolean array. *)
Definition count_true (l : list bool) : nat := length (filter (fun b => b) l).

Definition split_annotations (fuel : nat) (annotations : list (list Q))
  (dataLen : nat) (fs percentage duration overlap : Q)
  : result (option (list bool)) :=
  annotation_mask <- _eventList2Mask annotations dataLen fs ;;
  Ok (epoch_loop fuel (length annotation_mask) fs duration
        (duration - overlap * duration / 100)
        (fun a b =>
           Qle_bool (duration * fs * percentage / 100)
             (inject_Z (Z.of_nat (count_true (py_slice annotation_mask a b)))))
        0%Q).

(** * The driver loop: [main_features.py] *)

Section Driver.

Variable db4 : Wavelet.
Variable lapack_inv : nat -> (nat -> nat -> R) -> option (nat -> nat -> R).

(** [for channel in data:
        feature += feature_extraction(channel[i], channel[i+1])]. *)
Fixpoint channel_features (data : list (list (list R))) (i : nat)
  : result (list (list fval)) :=
  match data with
  | [] => Ok []
  | channel :: rest =>
      e <- index channel i ;;
      e1 <- index channel (i + 1) ;;
      f <- feature_extraction db4 lapack_inv e e1 ;;
      r <- channel_features rest i ;;
      Ok (f ++ r)
  end.

(** [for i, label in enumerate(labels)], counting from [i]; a record is
    its label and the rows that follow it. *)
Fixpoint feature_rows (data : list (list (list R))) (labels : list bool)
  (i : nat) : result (list (bool * list (list fval))) :=
  match labels with
  | [] => Ok []
  | label :: rest =>
      f <- channel_features data i ;;
      r <- feature_rows data rest (S i) ;;
      Ok ((label, f) :: r)
  end.

Definition feature_set (data : list (list (list R))) (annotations : list bool)
  : result (list (bool * list (list fval))) :=
  feature_rows data (py_slice annotations 0 (-2)) 0.

End Driver.

(** * The bipolar montage: [load_edf.py] *)

(** What [bipolar_rereference] can raise: the [KeyError] of its own
    [except] clause, or an exception that the clause lets through. *)
Inductive load_exn : Type :=
| KeyError
| Uncaught (e : exn).

Inductive loaded (A : Type) : Type :=
| Loaded (a : A)
| Failed (e : load_exn).

Arguments Loaded {A} a.
Arguments Failed {A} e.

(** [l.index(x)]: the position of the first item equal to [x]. *)
Fixpoint list_index (x : string) (l : list string) : result nat :=
  match l with
  | [] => Raise ValueError
  | y :: t =>
      if String.eqb y x then Ok 0%nat
      else i <- list_index x t ;; Ok (S i)
  end.

Definition bipolar_pairs : list (string * string) :=
  [("LiOorTop"%string, "LiOorAchter"%string);
   ("ReOorTop"%string, "ReOorAchter"%string);
   ("LiOorAchter"%string, "ReOorAchter"%string)].

(** The [try] block for one pair; [data[i, :]] is row [i] of the array.
    A [ValueError] from anywhere in the block becomes a [KeyError]. *)
Definition rereference_pair (data : list (list R))
  (channel_labels : list string) (bipolar_pair : string * string)
  : loaded (list R * string) :=
  match
    (pos_i <- list_index (fst bipolar_pair) channel_labels ;;
     neg_i <- list_index (snd bipolar_pair) channel_labels ;;
     pos <- index data pos_i ;;
     neg <- index data neg_i ;;
     d <- np_sub pos neg ;;
     Ok (d, String.append (fst bipolar_pair)
              (String.append " - " (snd bipolar_pair))))
  with
  | Ok r => Loaded r
  | Raise ValueError => Failed KeyError
  | Raise e => Failed (Uncaught e)
  end.

Fixpoint rereference_loop (data : list (list R))
  (channel_labels : list string) (todo : list (string * string))
  (bipolar_data : list (list R)) (bipolar_labels : list string)
  : loaded (list (list R) * list string) :=
  match todo with
  | [] => Loaded (bipolar_data, bipolar_labels)
  | bipolar_pair :: rest =>
      match rereference_pair data channel_labels bipolar_pair with
      | Loaded (d, l) =>
          rereference_loop data channel_labels rest
            (bipolar_data ++ [d]) (bipolar_labels ++ [l])
      | Failed e => Failed e
      end
  end.

Definition bipolar_rereference (data : list (list R))
  (channel_labels : list string) : loaded (list (list R) * list string) :=
  rereference_loop data channel_labels bipolar_pairs [] [].

(** * Seizure events: [load_annotations] of [load_edf.py]

    The model starts from what [edf.readAnnotations()] returns, the arrays
    of onsets, durations and texts. *)

Section LoadAnnotations.

(** [re.match(pattern, text, re.IGNORECASE) is not None]. *)
Variable re_match : string -> string -> bool.

Definition is_begin (interictal : bool) (text : string) : bool :=
  re_match "^begin_.*abs.*" text
  || re_match "^absence.*" text
  || re_match "^begin_aanval.*" text
  || re_match "^Note : absence start.*" text
  || (interictal && re_match "^begin_inter.*" text)
  || (interictal && re_match "^inter-ictaal.*" text)
  || (interictal && re_match "^\(?inter.*" text).

Definition is_end (interictal : bool) (text : string) : bool :=
  re_match "^einde_.*abs.*" text
  || re_match "^einde_aanval.*" text
  || re_match "^Note : absence stop.*" text
  || (interictal && re_match "^einde_inter.*" text).

(** [for i, text in enumerate(texts)], counting from [i]; [events[-1]] is
    the last item of [events]. *)
Fixpoint annotations_loop (interictal : bool) (onsets : list Q)
  (texts : list string) (i : nat) (events : list (list Q))
  : result (list (list Q)) :=
  match texts with
  | [] => Ok events
  | text :: rest =>
      if is_begin interictal text then
        let events1 :=
          if (0 <? length events)%nat
             && negb (length (last events []) =? 2)%nat
          then removelast events else events in
        t <- index onsets i ;;
        annotations_loop interictal onsets rest (S i) (events1 ++ [[t]])
      else if is_end interictal text then
        match events with
        | [] => Raise IndexError
        | _ =>
            t <- index onsets i ;;
            annotations_loop interictal onsets rest (S i)
              (removelast events ++ [last events [] ++ [t]])
        end
      else annotations_loop interictal onsets rest (S i) events
  end.

(** [event[1] - event[0]]. *)
Definition event_length (event : list Q) : result Q :=
  e1 <- index event 1 ;;
  e0 <- index event 0 ;;
  Ok (e1 - e0)%Q.

Fixpoint events_length (events : list (list Q)) : result (list Q) :=
  match events with
  | [] => Ok []
  | event :: rest =>
      d <- event_length event ;;
      ds <- events_length rest ;;
      Ok (d :: ds)
  end.

Definition load_annotations (annotations : list Q * list Q * list string)
  (interictal : bool) : result (list (list Q)) :=
  let '(onsets, _, texts) := annotations in
  events <- annotations_loop interictal onsets texts 0 [] ;;
  _ <- events_length events ;;
  Ok events.

End LoadAnnotations.

(** ** Concrete instances *)

(** The ['db4'] decomposition filters rounded to eight decimals. *)
Definition db4_rounded : Wavelet :=
  {| dec_lo := [-1059740 / 100000000; 3288301 / 100000000;
                3084138 / 100000000; -18703481 / 100000000;
                -2798377 / 100000000; 63088077 / 100000000;
                71484657 / 100000000; 23037781 / 100000000];
     dec_hi := [-23037781 / 100000000; 71484657 / 100000000;
                -63088077 / 100000000; -2798377 / 100000000;
                18703481 / 100000000; 3084138 / 100000000;
                -3288301 / 100000000; -1059740 / 100000000] |}.

(** An inversion routine that reports every matrix as singular: what an
    exact inversion answers on the outer products of vectors of two or more
    samples, the only matrices [feature_extraction] builds. *)
Definition inv_singular (n : nat) (e : nat -> nat -> R)
  : option (nat -> nat -> R) := None.

(** A 256-sample epoch: the ramp 0, 1, ..., 255. *)
Definition ramp_epoch : list R := map INR (seq 0 256).

(** Four samples: too few for one level of an eight-coefficient filter. *)
Definition four_samples : list R := [1; 2; 4; 8].

(** A 512-sample epoch: the ramp 0, 1, ..., 511. *)
Definition long_epoch : list R := map INR (seq 0 512).

(** A channel of 512 samples, four seconds at 128 Hz, each sample its own
    position. *)
Definition ramp_channel : list nat := seq 0 512.

(** One event, from second 1 to second 3. *)
Definition one_event : list (list Q) := [[1%Q; 3%Q]].

(** A channel already cut into three epochs. *)
Definition three_epochs : list (list R) := [ramp_epoch; ramp_epoch; ramp_epoch].

(** The labels [load_data] passes to [bipolar_rereference], and an array
    of four rows of two samples. *)
Definition channels : list string :=
  ["LiOorTop"%string; "LiOorAchter"%string; "ReOorTop"%string;
   "ReOorAchter"%string].

Definition four_rows : list (list R) := [[1; 2]; [3; 5]; [0; 1]; [2; 2]].

(** A recording without the right electrode behind the ear. *)
Definition three_labels : list string :=
  ["LiOorTop"%string; "LiOorAchter"%string; "ReOorTop"%string].

Definition three_rows : list (list R) := [[1; 2]; [3; 5]; [0; 1]].

(** A matcher to run [load_annotations] on examples: [re.match] with
    [re.IGNORECASE] for ASCII text and the pattern forms the program uses,
    a leading [^], literal characters, [\c], [c?] and [.*]. *)
Inductive re_item : Type :=
| Lit (c : ascii)
| Opt (c : ascii)
| Any.

Fixpoint parse_pattern (p : list ascii) : list re_item :=
  match p with
  | [] => []
  | "\"%char :: c :: "?"%char :: r => Opt c :: parse_pattern r
  | "\"%char :: c :: r => Lit c :: parse_pattern r
  | "."%char :: "*"%char :: r => Any :: parse_pattern r
  | c :: "?"%char :: r => Opt c :: parse_pattern r
  | c :: r => Lit c :: parse_pattern r
  end.

Definition ascii_lower (c : ascii) : nat :=
  let n := nat_of_ascii c in
  if (65 <=? n)%nat && (n <=? 90)%nat then (n + 32)%nat else n.

Definition same_letter (a b : ascii) : bool :=
  (ascii_lower a =? ascii_lower b)%nat.

Fixpoint match_items (items : list re_item) (text : list ascii) : bool :=
  match items with
  | [] => true
  | Lit c :: r =>
      match text with
      | x :: t => same_letter c x && match_items r t
      | [] => false
      end
  | Opt c :: r =>
      match text with
      | x :: t => (same_letter c x && match_items r t) || match_items r text
      | [] => match_items r text
      end
  | Any :: r =>
      (fix skip (t : list ascii) : bool :=
         match_items r t
         || match t with
            | x :: t' =>
                if (nat_of_ascii x =? 10)%nat then false else skip t'
            | [] => false
            end) text
  end.

Definition re_match_ascii (pattern text : string) : bool :=
  match list_ascii_of_string pattern with
  | "^"%char :: p =>
      match_items (parse_pattern p) (list_ascii_of_string text)
  | p => match_items (parse_pattern p) (list_ascii_of_string text)
  end.

(** Annotations of a recording: onsets in seconds with their texts. *)
Definition seizure_marks : list (Q * string) :=
  [(10%Q, "begin_aanval"%string); (12%Q, "opmerking"%string);
   (25%Q, "einde_aanval"%string)].

Definition doubled_end_marks : list (Q * string) :=
  [(10%Q, "begin_aanval"%string); (25%Q, "einde_aanval"%string);
   (26%Q, "Einde_Aanval"%string); (40%Q, "begin_absence"%string);
   (50%Q, "einde_absence"%string)].

(** * Properties *)

(** ** Sums *)

Lemma sum_upto_ext (n : nat) (f g : nat -> R) :
  (forall i, (i < n)%nat -> f i = g i) -> sum_upto n f = sum_upto n g.
Proof.
  intros H. unfold sum_upto. f_equal. apply map_ext_in.
  intros i Hi. apply in_seq in Hi. apply H. lia.
Qed.

Lemma sum_upto_scale (k : R) (n : nat) (f : nat -> R) :
  sum_upto n (fun i => k * f i) = k * sum_upto n f.
Proof.
  unfold sum_upto. generalize (seq 0 n) as l.
  induction l as [|i l IH]; simpl.
  - lra.
  - rewrite IH. lra.
Qed.

Lemma np_sum_nonneg (l : list R) : Forall (fun x => 0 <= x) l -> 0 <= np_sum l.
Proof.
  induction 1 as [|x l Hx _ IH]; simpl; lra.
Qed.

Lemma np_sum_square_nonneg (l : list R) : 0 <= np_sum (np_square l).
Proof.
  apply np_sum_nonneg. unfold np_square. apply Forall_forall.
  intros y Hy. apply in_map_iff in Hy. destruct Hy as (x & <- & _). nra.
Qed.

Lemma sum_upto_shift (n : nat) (f : nat -> R) :
  sum_upto (S n) f = f 0%nat + sum_upto n (fun i => f (S i)).
Proof.
  unfold sum_upto. cbn [seq map np_sum fold_right].
  rewrite <- seq_shift, map_map. reflexivity.
Qed.

Lemma sum_upto_nth (g : R -> R) (l : list R) :
  sum_upto (length l) (fun i => g (nth i l 0)) = np_sum (map g l).
Proof.
  induction l as [|x l IH].
  - reflexivity.
  - cbn [length]. rewrite sum_upto_shift. cbn [nth map].
    rewrite IH. reflexivity.
Qed.

Lemma sum_upto_zero (n : nat) : sum_upto n (fun _ => 0) = 0.
Proof.
  rewrite (sum_upto_ext n _ (fun i => 0 * 0)) by (intros; lra).
  rewrite sum_upto_scale. lra.
Qed.

Lemma sum_upto_pick (n j : nat) (f : nat -> R) :
  (j < n)%nat ->
  sum_upto n (fun i => f i * (if (i =? j)%nat then 1 else 0)) = f j.
Proof.
  revert j f. induction n as [|n IH]; intros j f Hj; [lia|].
  rewrite sum_upto_shift. destruct j as [|j].
  - cbn [Nat.eqb].
    rewrite (sum_upto_ext n _ (fun _ => 0)) by (intros; cbn; lra).
    rewrite sum_upto_zero. lra.
  - cbn [Nat.eqb]. rewrite (IH j (fun i => f (S i))) by lia. lra.
Qed.

Lemma map_nth_all (l : list R) :
  map (fun j => nth j l 0) (seq 0 (length l)) = l.
Proof.
  induction l as [|x l IH]; [reflexivity|].
  cbn [length seq map nth]. rewrite <- seq_shift, map_map.
  cbn [nth]. rewrite IH. reflexivity.
Qed.

(** ** The filter design succeeds and returns [numtaps] coefficients *)

Lemma firwin_length (n : nat) (c : list R) (pz : bool) (fs : R) (h : list R) :
  firwin n c pz fs = Ok h -> length h = n.
Proof.
  unfold firwin.
  destruct (map (fun f => f / (fs / 2)) c); [discriminate|].
  destruct (negb (inside_unit (r :: l))); [discriminate|].
  destruct (negb (increasing (r :: l))); [discriminate|].
  destruct (_ && _); [discriminate|].
  intros H. inversion H. rewrite length_map, length_seq. reflexivity.
Qed.

Lemma firwin_checks (n : nat) (c : list R) (pz : bool) (fs : R) :
  c <> [] ->
  inside_unit (map (fun f => f / (fs / 2)) c) = true ->
  increasing (map (fun f => f / (fs / 2)) c) = true ->
  xorb (Nat.odd (length c)) pz && Nat.even n = false ->
  exists h, firwin n c pz fs = Ok h.
Proof.
  intros Hc Hin Hinc Hny. unfold firwin.
  rewrite Hin, Hinc, length_map, Hny.
  destruct c as [|x c]; [contradiction|].
  cbn [map negb]. eexists. reflexivity.
Qed.

Lemma firwin_two_edges (a b : R) :
  0 < a -> a < b -> b < 64 ->
  exists h, firwin 467 [a; b] true 128 = Ok h /\ length h = 467%nat.
Proof.
  intros Ha Hab Hb.
  assert (H1 : 0 < a / (128 / 2)) by (apply Rdiv_lt_0_compat; lra).
  assert (H2 : a / (128 / 2) < b / (128 / 2))
    by (unfold Rdiv; apply Rmult_lt_compat_r; lra).
  assert (H3 : b / (128 / 2) < 1)
    by (apply Rmult_lt_reg_r with (128 / 2); [lra|]; field_simplify; lra).
  destruct (firwin_checks 467 [a; b] true 128) as [h Hh].
  - discriminate.
  - cbn [map inside_unit].
    destruct (Rlt_dec 0 (a / (128 / 2))); [|lra].
    destruct (Rlt_dec (a / (128 / 2)) 1); [|lra].
    destruct (Rlt_dec 0 (b / (128 / 2))); [|lra].
    destruct (Rlt_dec (b / (128 / 2)) 1); [|lra].
    reflexivity.
  - cbn [map increasing].
    destruct (Rlt_dec (a / (128 / 2)) (b / (128 / 2))); [|lra].
    reflexivity.
  - reflexivity.
  - exists h. split; [exact Hh|]. eapply firwin_length; exact Hh.
Qed.

Lemma firwin_bands_pass_zero (a b nyq : R) :
  firwin_bands [a; b] true nyq = [(0, a / nyq); (b / nyq, 1)].
Proof. reflexivity. Qed.

Lemma firwin_bands_band_pass (a b nyq : R) :
  firwin_bands [a; b] false nyq = [(a / nyq, b / nyq)].
Proof. reflexivity. Qed.

(** ** Convolution and correlation *)

Lemma np_convolve_ok (a v : list R) :
  a <> [] -> v <> [] ->
  np_convolve a v = Ok (map (conv_at a v) (seq 0 (length a + length v - 1))).
Proof.
  intros Ha Hv. destruct a; [contradiction|]. destruct v; [contradiction|].
  reflexivity.
Qed.

Lemma np_convolve_inv (a v c : list R) :
  np_convolve a v = Ok c ->
  a <> [] /\ v <> [] /\
  c = map (conv_at a v) (seq 0 (length a + length v - 1)).
Proof.
  destruct a; [discriminate|]. destruct v; [discriminate|].
  intros H. inversion H. repeat split; discriminate.
Qed.

Lemma np_convolve_length (a v c : list R) :
  np_convolve a v = Ok c -> length c = (length a + length v - 1)%nat.
Proof.
  intros H. apply np_convolve_inv in H. destruct H as (_ & _ & ->).
  rewrite length_map, length_seq. reflexivity.
Qed.

Lemma np_correlate_head (a v : list R) :
  a <> [] -> v <> [] ->
  exists c x, np_correlate a v = Ok c /\ index c 0 = Ok x.
Proof.
  intros Ha Hv. destruct a as [|a0 a]; [contradiction|].
  destruct v as [|v0 v]; [contradiction|].
  unfold np_correlate.
  destruct (length (v0 :: v) <=? length (a0 :: a))%nat.
  - rewrite Nat.add_1_r. cbn [seq map]. eexists. eexists.
    split; reflexivity.
  - set (l := map _ _).
    assert (Hl : l <> []).
    { unfold l. rewrite Nat.add_1_r. discriminate. }
    destruct (rev l) as [|y r] eqn:E.
    + apply (f_equal (@length R)) in E. rewrite length_rev in E.
      destruct l; [contradiction|discriminate].
    + exists (y :: r), y. split; reflexivity.
Qed.

Lemma np_correlate_same_length (a v : list R) :
  a <> [] -> length a = length v ->
  np_correlate a v = Ok [corr_at a v 0].
Proof.
  intros Ha Hlen. destruct a as [|a0 a]; [contradiction|].
  destruct v as [|v0 v]; [discriminate|].
  unfold np_correlate. rewrite <- Hlen, Nat.leb_refl, Nat.sub_diag.
  reflexivity.
Qed.

(** ** The wavelet decomposition *)

Section Properties.

Variable db4 : Wavelet.
Variable lapack_inv : nat -> (nat -> nat -> R) -> option (nat -> nat -> R).

(** ['db4'] has eight decomposition coefficients. *)
Hypothesis db4_len : dec_len db4 = 8%nat.

Lemma epoch_max_level (data : list R) :
  length data = 256%nat ->
  dwt_max_level (length data) (dec_len db4) = Ok 5%nat.
Proof. intros ->. rewrite db4_len. reflexivity. Qed.

Lemma wavedec_loop_five (x : list R) :
  exists a1 d1 a2 d2 a3 d3 a4 d4 a5 d5,
    dwt db4 x = (a1, d1) /\ dwt db4 a1 = (a2, d2) /\
    dwt db4 a2 = (a3, d3) /\ dwt db4 a3 = (a4, d4) /\
    dwt db4 a4 = (a5, d5) /\
    wavedec_loop db4 5 x [] = [a5; d5; d4; d3; d2; d1].
Proof.
  cbn [wavedec_loop].
  destruct (dwt db4 x) as [a1 d1] eqn:E1.
  destruct (dwt db4 a1) as [a2 d2] eqn:E2.
  destruct (dwt db4 a2) as [a3 d3] eqn:E3.
  destruct (dwt db4 a3) as [a4 d4] eqn:E4.
  destruct (dwt db4 a4) as [a5 d5] eqn:E5.
  exists a1, d1, a2, d2, a3, d3, a4, d4, a5, d5.
  repeat (split; [assumption || reflexivity|]). reflexivity.
Qed.

Lemma wavelets_structure (data : list R) :
  length data = 256%nat ->
  exists a1 d1 a2 d2 a3 d3 a4 d4 a5 d5,
    dwt db4 data = (a1, d1) /\ dwt db4 a1 = (a2, d2) /\
    dwt db4 a2 = (a3, d3) /\ dwt db4 a3 = (a4, d4) /\
    dwt db4 a4 = (a5, d5) /\
    wavedec db4 None data = Ok [a5; d5; d4; d3; d2; d1] /\
    extract_log_sum_wavelets db4 data =
      Ok [np_log (np_sum (np_abs d5)); np_log (np_sum (np_abs d3));
          np_log (np_sum (np_abs d2)); np_log (np_sum (np_abs d1))].
Proof.
  intros Hlen.
  assert (Hw : wavedec db4 None data = Ok (wavedec_loop db4 5 data [])).
  { unfold wavedec. rewrite (epoch_max_level data Hlen). reflexivity. }
  destruct (wavedec_loop_five data)
    as (a1 & d1 & a2 & d2 & a3 & d3 & a4 & d4 & a5 & d5 &
        E1 & E2 & E3 & E4 & E5 & E).
  exists a1, d1, a2, d2, a3, d3, a4, d4, a5, d5.
  repeat (split; [assumption|]).
  rewrite E in Hw. split; [exact Hw|].
  unfold extract_log_sum_wavelets. rewrite Hw. reflexivity.
Qed.

(** C2: on a 256-sample epoch the call [pywt.wavedec(data, 'db4', 5)]
    is the 5-level decomposition: five successive single-level
    transforms of the running approximation, returned as the final
    approximation followed by the five detail sets from the coarsest to
    the finest.  The sub-extractor returns the logarithm of the absolute
    sum of the detail sets 5, 3, 2 and 1: the approximation is skipped and
    the second detail value (level 4) is dropped, so four values remain. *)
Theorem wavelets_five_levels_drop_second (data : list R) :
  length data = 256%nat ->
  wavedec db4 None data = wavedec db4 (Some 5%nat) data /\
  exists a1 d1 a2 d2 a3 d3 a4 d4 a5 d5,
    dwt db4 data = (a1, d1) /\ dwt db4 a1 = (a2, d2) /\
    dwt db4 a2 = (a3, d3) /\ dwt db4 a3 = (a4, d4) /\
    dwt db4 a4 = (a5, d5) /\
    wavedec db4 None data = Ok [a5; d5; d4; d3; d2; d1] /\
    extract_log_sum_wavelets db4 data =
      Ok [np_log (np_sum (np_abs d5)); np_log (np_sum (np_abs d3));
          np_log (np_sum (np_abs d2)); np_log (np_sum (np_abs d1))].
Proof.
  intros Hlen. split.
  - unfold wavedec. rewrite (epoch_max_level data Hlen). reflexivity.
  - apply wavelets_structure. exact Hlen.
Qed.

Lemma wavelets_four (data : list R) :
  length data = 256%nat ->
  exists w, extract_log_sum_wavelets db4 data = Ok w /\ length w = 4%nat.
Proof.
  intros Hlen.
  destruct (wavelets_structure data Hlen)
    as (a1 & d1 & a2 & d2 & a3 & d3 & a4 & d4 & a5 & d5 & H).
  destruct H as (_ & _ & _ & _ & _ & _ & H).
  eexists. split; [exact H|reflexivity].
Qed.

(** ** The phase and distance features return a value *)

Lemma extract_phase_ok (data : list R) :
  data <> [] -> exists ph, extract_phase data = Ok ph.
Proof.
  intros Hd. unfold extract_phase, hilbert. rewrite length_map.
  destruct data as [|x data]; [contradiction|].
  cbn [length bind]. eexists. reflexivity.
Qed.

Lemma np_sub_same_length (u v : list R) :
  length u = length v ->
  np_sub u v = Ok (map (fun p => fst p - snd p) (combine u v)).
Proof. intros H. unfold np_sub. rewrite H, Nat.eqb_refl. reflexivity. Qed.

Lemma delta_length (u v : list R) :
  length u = length v ->
  length (map (fun p => fst p - snd p) (combine u v)) = length u.
Proof. intros H. rewrite length_map, length_combine, <- H. apply Nat.min_id. Qed.

Lemma mahalanobis_square (u v : list R) (M : matrix) :
  length u = length v -> nrows M = length u -> ncols M = length u ->
  exists m, mahalanobis u v M = Ok (np_sqrt m).
Proof.
  intros Huv Hr Hc. unfold mahalanobis.
  rewrite (np_sub_same_length u v Huv). cbn [bind].
  unfold dot_vm. rewrite (delta_length u v Huv), Hr, Nat.eqb_refl.
  cbn [bind]. unfold dot_vv.
  rewrite length_map, length_seq, Hc, (delta_length u v Huv), Nat.eqb_refl.
  cbn [bind]. eexists. reflexivity.
Qed.

Lemma extract_mahalanobis_ok (b1 b2 : list R) :
  length b1 = length b2 ->
  exists d, extract_mahalanobis lapack_inv b1 b2 = Ok d.
Proof.
  intros Hlen. unfold extract_mahalanobis, np_linalg_inv.
  cbn [np_outer nrows ncols entry]. rewrite Hlen, Nat.eqb_refl.
  destruct (lapack_inv _ _) as [e|]; cbn [try_except bind].
  - destruct (mahalanobis_square b1 b2
                {| nrows := length b2; ncols := length b2; entry := e |})
      as [m Hm]; auto.
    rewrite Hm. cbn [bind]. eexists. reflexivity.
  - destruct (mahalanobis_square b1 b2 (np_eye (length b2)))
      as [m Hm]; auto.
    rewrite Hm. cbn [bind]. eexists. reflexivity.
Qed.

(** ** The distance feature *)

Lemma dot_vm_eye (d : list R) : dot_vm d (np_eye (length d)) = Ok d.
Proof.
  unfold dot_vm. cbn [np_eye nrows ncols entry]. rewrite Nat.eqb_refl.
  f_equal. transitivity (map (fun j => nth j d 0) (seq 0 (length d)));
    [|apply map_nth_all].
  apply map_ext_in. intros j Hj. apply in_seq in Hj.
  apply (sum_upto_pick (length d) j (fun i => nth i d 0)).
  destruct Hj as [_ Hj]. exact Hj.
Qed.

Lemma mahalanobis_eye (u v : list R) :
  length u = length v ->
  exists delta,
    np_sub u v = Ok delta /\
    mahalanobis u v (np_eye (length u)) =
      Ok (Fin (sqrt (np_sum (np_square delta)))).
Proof.
  intros Huv. eexists. split; [apply np_sub_same_length; exact Huv|].
  unfold mahalanobis. rewrite (np_sub_same_length u v Huv). cbn [bind].
  set (delta := map _ (combine u v)).
  assert (Ld : length delta = length u) by (apply delta_length; exact Huv).
  rewrite <- Ld, dot_vm_eye. cbn [bind]. unfold dot_vv.
  rewrite Nat.eqb_refl. cbn [bind].
  rewrite (sum_upto_nth (fun x => x * x) delta). fold (np_square delta).
  unfold np_sqrt.
  destruct (Rle_dec 0 (np_sum (np_square delta))) as [_|Hn];
    [reflexivity|].
  contradiction Hn. apply np_sum_square_nonneg.
Qed.

Lemma np_pow_var_scalar_fin (r y : R) :
  np_pow (np_var_scalar (Fin r)) y = Fin 0.
Proof.
  cbn [np_var_scalar np_pow].
  destruct (Rlt_dec 0 ((r - r) * (r - r))) as [H|_]; [nra|].
  destruct (Req_dec_T ((r - r) * (r - r)) 0) as [_|H]; [reflexivity|nra].
Qed.

Lemma extract_mahalanobis_inv (b1 b2 : list R) (d : fval) :
  extract_mahalanobis lapack_inv b1 b2 = Ok d ->
  exists inv_cov dist,
    try_except (np_linalg_inv lapack_inv (np_outer b1 b2)) LinAlgError
      (Ok (np_eye (length b1))) = Ok inv_cov /\
    mahalanobis b1 b2 inv_cov = Ok dist /\
    d = np_pow (np_var_scalar dist) (1 / 4).
Proof.
  unfold extract_mahalanobis.
  destruct (try_except _ _ _) as [inv_cov|e]; [|discriminate].
  cbn [bind]. destruct (mahalanobis b1 b2 inv_cov) as [dist|e] eqn:E;
    [|discriminate].
  cbn [bind]. intros H. injection H as <-.
  exists inv_cov, dist.
  split; [reflexivity|split; [exact E|reflexivity]].
Qed.

Lemma fallback_distance_zero (b1 b2 : list R) :
  length b1 = length b2 ->
  np_linalg_inv lapack_inv (np_outer b1 b2) = Raise LinAlgError ->
  extract_mahalanobis lapack_inv b1 b2 = Ok (Fin 0).
Proof.
  intros Hlen Hinv. unfold extract_mahalanobis. rewrite Hinv.
  cbn [try_except bind].
  destruct (mahalanobis_eye b1 b2 Hlen) as (delta & _ & ->).
  cbn [bind]. rewrite np_pow_var_scalar_fin. reflexivity.
Qed.

(** ** The shape of the whole computation on a well-formed epoch pair *)

Lemma nonempty_of_length {A : Type} (l : list A) (n : nat) :
  length l = S n -> l <> [].
Proof. intros H ->. discriminate. Qed.

Lemma feature_extraction_structure (data data1 : list R) :
  length data = 256%nat -> data1 <> [] ->
  exists k1 k2 b1 b2 w x1 x2 ph d,
    firwin 467 [1; 30] true 128 = Ok k1 /\ length k1 = 467%nat /\
    firwin 467 [3; 12] true 128 = Ok k2 /\ length k2 = 467%nat /\
    np_convolve data k1 = Ok b1 /\ np_convolve data k2 = Ok b2 /\
    extract_log_sum_wavelets db4 data = Ok w /\ length w = 4%nat /\
    (exists c1, np_correlate data data1 = Ok c1 /\ index c1 0 = Ok x1) /\
    (exists c2, np_correlate b1 b2 = Ok c2 /\ index c2 0 = Ok x2) /\
    extract_phase data = Ok ph /\
    extract_mahalanobis lapack_inv b1 b2 = Ok d /\
    feature_extraction db4 lapack_inv data data1 =
      Ok [w ++ extract_power b1 b2 ++
          [np_pow (Fin x1) (1 / 2); Fin (x2 * x2)] ++ [ph] ++ [d]].
Proof.
  intros Hlen Hd1.
  assert (Hd : data <> []) by (eapply nonempty_of_length; exact Hlen).
  destruct (firwin_two_edges 1 30) as (k1 & Hk1 & Lk1); try lra.
  destruct (firwin_two_edges 3 12) as (k2 & Hk2 & Lk2); try lra.
  assert (Nk1 : k1 <> []) by (eapply nonempty_of_length; exact Lk1).
  assert (Nk2 : k2 <> []) by (eapply nonempty_of_length; exact Lk2).
  pose proof (np_convolve_ok data k1 Hd Nk1) as Hb1.
  pose proof (np_convolve_ok data k2 Hd Nk2) as Hb2.
  set (b1 := map (conv_at data k1) _) in Hb1.
  set (b2 := map (conv_at data k2) _) in Hb2.
  assert (Lb1 : length b1 = 722%nat).
  { unfold b1. rewrite length_map, length_seq, Hlen, Lk1. reflexivity. }
  assert (Lb2 : length b2 = 722%nat).
  { unfold b2. rewrite length_map, length_seq, Hlen, Lk2. reflexivity. }
  assert (Nb1 : b1 <> []) by (eapply nonempty_of_length; exact Lb1).
  assert (Nb2 : b2 <> []) by (eapply nonempty_of_length; exact Lb2).
  destruct (wavelets_four data Hlen) as (w & Hw & Lw).
  destruct (np_correlate_head data data1 Hd Hd1) as (c1 & x1 & Hc1 & Hx1).
  destruct (np_correlate_head b1 b2 Nb1 Nb2) as (c2 & x2 & Hc2 & Hx2).
  destruct (extract_phase_ok data Hd) as (ph & Hph).
  destruct (extract_mahalanobis_ok b1 b2) as (d & Hdist);
    [rewrite Lb1, Lb2; reflexivity|].
  exists k1, k2, b1, b2, w, x1, x2, ph, d.
  repeat (split; [eassumption|]).
  split; [exists c1; split; assumption|].
  split; [exists c2; split; assumption|].
  repeat (split; [eassumption|]).
  unfold feature_extraction.
  rewrite Hk1. cbn [bind]. rewrite Hb1. cbn [bind].
  rewrite Hk2. cbn [bind]. rewrite Hb2. cbn [bind].
  rewrite Hw. cbn [bind].
  unfold extract_correlate. rewrite Hc1. cbn [bind]. rewrite Hx1. cbn [bind].
  rewrite Hc2. cbn [bind]. rewrite Hx2. cbn [bind].
  rewrite Hph. cbn [bind]. rewrite Hdist. cbn [bind]. reflexivity.
Qed.

(** C3: each of the two intermediate signals is the full convolution of the
    epoch with a 467-coefficient windowed kernel designed for 128 Hz, so it
    has the length of the epoch plus 466.  The kernels are designed with
    [pass_zero] left at its default: the bands they let through are
    [0, 1] Hz and [30, 64] Hz for the first and [0, 3] Hz and [12, 64] Hz
    for the second (as fractions of the 64 Hz Nyquist frequency), the
    complement of the bands [1, 30] Hz and [3, 12] Hz. *)
Theorem filtered_signals_full_length_band_stop (data : list R) :
  data <> [] ->
  exists k1 k2 b1 b2,
    firwin 467 [1; 30] true 128 = Ok k1 /\ length k1 = 467%nat /\
    firwin 467 [3; 12] true 128 = Ok k2 /\ length k2 = 467%nat /\
    np_convolve data k1 = Ok b1 /\ length b1 = (length data + 466)%nat /\
    np_convolve data k2 = Ok b2 /\ length b2 = (length data + 466)%nat /\
    firwin_bands [1; 30] true (128 / 2) = [(0, 1 / 64); (30 / 64, 1)] /\
    firwin_bands [3; 12] true (128 / 2) = [(0, 3 / 64); (12 / 64, 1)] /\
    firwin_bands [1; 30] true (128 / 2)
      <> firwin_bands [1; 30] false (128 / 2).
Proof.
  clear db4_len. intros Hd.
  destruct (firwin_two_edges 1 30) as (k1 & Hk1 & Lk1); try lra.
  destruct (firwin_two_edges 3 12) as (k2 & Hk2 & Lk2); try lra.
  assert (Nk1 : k1 <> []) by (eapply nonempty_of_length; exact Lk1).
  assert (Nk2 : k2 <> []) by (eapply nonempty_of_length; exact Lk2).
  exists k1, k2. eexists. eexists.
  repeat (split; [eassumption|]).
  split; [apply np_convolve_ok; assumption|].
  split; [rewrite length_map, length_seq, Lk1; lia|].
  split; [apply np_convolve_ok; assumption|].
  split; [rewrite length_map, length_seq, Lk2; lia|].
  rewrite !firwin_bands_pass_zero, firwin_bands_band_pass.
  split; [repeat f_equal; lra|].
  split; [repeat f_equal; lra|].
  discriminate.
Qed.

Lemma length_four {A : Type} (l : list A) :
  length l = 4%nat -> exists a b c d, l = [a; b; c; d].
Proof.
  destruct l as [|a [|b [|c [|d [|e l]]]]]; try discriminate.
  intros _. exists a, b, c, d. reflexivity.
Qed.

(** C1: on a pair of epochs (256 samples for the current one, a non-empty
    next one) [feature_extraction] returns a list holding exactly one list
    of exactly ten values: the four wavelet features, the two power
    features, the two correlation features, the phase feature and the
    distance feature, in this order. *)
Theorem feature_extraction_one_row_of_ten (data data1 : list R) :
  length data = 256%nat -> data1 <> [] ->
  exists b1 b2 w c ph d,
    extract_log_sum_wavelets db4 data = Ok w /\ length w = 4%nat /\
    length (extract_power b1 b2) = 2%nat /\
    extract_correlate data data1 b1 b2 = Ok c /\ length c = 2%nat /\
    extract_phase data = Ok ph /\
    extract_mahalanobis lapack_inv b1 b2 = Ok d /\
    feature_extraction db4 lapack_inv data data1 =
      Ok [w ++ extract_power b1 b2 ++ c ++ [ph] ++ [d]] /\
    length (w ++ extract_power b1 b2 ++ c ++ [ph] ++ [d]) = 10%nat.
Proof.
  intros Hlen Hd1.
  destruct (feature_extraction_structure data data1 Hlen Hd1)
    as (k1 & k2 & b1 & b2 & w & x1 & x2 & ph & d & _ & _ & _ & _ & _ & _ &
        Hw & Lw & (c1 & Hc1 & Hx1) & (c2 & Hc2 & Hx2) & Hph & Hdist & Hfe).
  exists b1, b2, w, [np_pow (Fin x1) (1 / 2); Fin (x2 * x2)], ph, d.
  repeat (split; [assumption || reflexivity|]).
  split.
  { unfold extract_correlate. rewrite Hc1. cbn [bind]. rewrite Hx1.
    cbn [bind]. rewrite Hc2. cbn [bind]. rewrite Hx2. reflexivity. }
  repeat (split; [assumption || reflexivity|]).
  rewrite length_app, Lw. reflexivity.
Qed.

Lemma np_div_zero_power (x : R) :
  0 <= x -> np_div x 0 = NaN \/ np_div x 0 = PInf.
Proof.
  intros Hx. unfold np_div.
  destruct (Req_dec_T 0 0) as [_|n]; [|contradiction n; reflexivity].
  destruct (Req_dec_T x 0); [left; reflexivity|].
  destruct (Rlt_dec 0 x); [right; reflexivity|lra].
Qed.

(** C4: output 4 is the sum of the squared samples of the first filtered
    signal raised to the power 0.1, and output 5 is the sum of squares of
    the second filtered signal divided by that of the first.  Nothing guards
    the division: when the first power is zero the call still returns its
    row, with NaN or an infinity at position 5. *)
Theorem power_features_unguarded_ratio (data data1 : list R) :
  length data = 256%nat -> data1 <> [] ->
  exists k1 k2 b1 b2 row,
    firwin 467 [1; 30] true 128 = Ok k1 /\ np_convolve data k1 = Ok b1 /\
    firwin 467 [3; 12] true 128 = Ok k2 /\ np_convolve data k2 = Ok b2 /\
    feature_extraction db4 lapack_inv data data1 = Ok [row] /\
    nth_error row 4 = Some (np_pow (Fin (np_sum (np_square b1))) (1 / 10)) /\
    nth_error row 5 =
      Some (np_div (np_sum (np_square b2)) (np_sum (np_square b1))) /\
    (np_sum (np_square b1) = 0 ->
     nth_error row 5 = Some NaN \/ nth_error row 5 = Some PInf) /\
    (0 < np_sum (np_square b1) ->
     nth_error row 4 = Some (Fin (Rpower (np_sum (np_square b1)) (1 / 10))) /\
     nth_error row 5 =
       Some (Fin (np_sum (np_square b2) / np_sum (np_square b1)))).
Proof.
  intros Hlen Hd1.
  destruct (feature_extraction_structure data data1 Hlen Hd1)
    as (k1 & k2 & b1 & b2 & w & x1 & x2 & ph & d & Hk1 & _ & Hk2 & _ &
        Hb1 & Hb2 & _ & Lw & _ & _ & _ & _ & Hfe).
  destruct (length_four w Lw) as (w0 & w1 & w2 & w3 & ->).
  exists k1, k2, b1, b2. eexists.
  repeat (split; [eassumption|]).
  cbn [app extract_power nth_error].
  split; [reflexivity|]. split; [reflexivity|]. split.
  - intros H0. rewrite H0.
    destruct (np_div_zero_power (np_sum (np_square b2))
                (np_sum_square_nonneg b2)) as [E|E];
      rewrite E; [left|right]; reflexivity.
  - intros Hpos. unfold np_pow, np_div.
    destruct (Rlt_dec 0 (np_sum (np_square b1))); [|contradiction].
    destruct (Req_dec_T (np_sum (np_square b1)) 0); [lra|].
    split; reflexivity.
Qed.

(** C10: the next epoch reaches the output only through the first
    correlation feature: for one current epoch and any two next epochs the
    two rows agree at every position other than 6. *)
Theorem only_first_correlation_reads_next_epoch (data data1 data1' : list R) :
  length data = 256%nat -> data1 <> [] -> data1' <> [] ->
  exists row row',
    feature_extraction db4 lapack_inv data data1 = Ok [row] /\
    feature_extraction db4 lapack_inv data data1' = Ok [row'] /\
    length row = 10%nat /\ length row' = 10%nat /\
    forall i, i <> 6%nat -> nth_error row i = nth_error row' i.
Proof.
  intros Hlen Hd1 Hd1'.
  destruct (feature_extraction_structure data data1 Hlen Hd1)
    as (k1 & k2 & b1 & b2 & w & x1 & x2 & ph & d & Hk1 & _ & Hk2 & _ &
        Hb1 & Hb2 & Hw & Lw & _ & (c2 & Hc2 & Hx2) & Hph & Hdist & Hfe).
  destruct (feature_extraction_structure data data1' Hlen Hd1')
    as (k1' & k2' & b1' & b2' & w' & x1' & x2' & ph' & d' & Hk1' & _ &
        Hk2' & _ & Hb1' & Hb2' & Hw' & _ & _ & (c2' & Hc2' & Hx2') &
        Hph' & Hdist' & Hfe').
  rewrite Hk1 in Hk1'. injection Hk1' as <-.
  rewrite Hk2 in Hk2'. injection Hk2' as <-.
  rewrite Hb1 in Hb1'. injection Hb1' as <-.
  rewrite Hb2 in Hb2'. injection Hb2' as <-.
  rewrite Hw in Hw'. injection Hw' as <-.
  rewrite Hc2 in Hc2'. injection Hc2' as <-.
  rewrite Hx2 in Hx2'. injection Hx2' as <-.
  rewrite Hph in Hph'. injection Hph' as <-.
  rewrite Hdist in Hdist'. injection Hdist' as <-.
  destruct (length_four w Lw) as (w0 & w1 & w2 & w3 & ->).
  eexists. eexists.
  split; [exact Hfe|]. split; [exact Hfe'|].
  split; [reflexivity|]. split; [reflexivity|].
  intros i Hi. cbn [app extract_power].
  do 10 (destruct i as [|i]; [reflexivity || contradiction|]).
  reflexivity.
Qed.

Lemma corr_at_self (l : list R) : corr_at l l 0 = np_sum (np_square l).
Proof.
  unfold corr_at, np_square. cbn [Nat.add].
  apply (sum_upto_nth (fun x => x * x)).
Qed.

Lemma np_pow_half_nonneg (s : R) :
  0 <= s -> np_pow (Fin s) (1 / 2) = Fin (sqrt s).
Proof.
  intros Hs. unfold np_pow.
  destruct (Rlt_dec 0 s) as [Hpos|Hn].
  - replace (1 / 2) with (/ 2) by lra. rewrite Rpower_sqrt by exact Hpos.
    reflexivity.
  - destruct (Req_dec_T s 0) as [->|Hne]; [|lra].
    rewrite sqrt_0. reflexivity.
Qed.

(** C7: when the next epoch is the current epoch itself, output 6 is the
    square root of the sum of the squared samples of the epoch: the
    correlation of two series of equal length is their inner product. *)
Theorem self_correlation_is_root_sum_of_squares (data : list R) :
  length data = 256%nat ->
  np_correlate data data = Ok [np_sum (np_square data)] /\
  exists row,
    feature_extraction db4 lapack_inv data data = Ok [row] /\
    nth_error row 6 = Some (Fin (sqrt (np_sum (np_square data)))).
Proof.
  intros Hlen.
  assert (Hd : data <> []) by (eapply nonempty_of_length; exact Hlen).
  pose proof (np_correlate_same_length data data Hd eq_refl) as Hself.
  rewrite corr_at_self in Hself.
  split; [exact Hself|].
  destruct (feature_extraction_structure data data Hlen Hd)
    as (k1 & k2 & b1 & b2 & w & x1 & x2 & ph & d & _ & _ & _ & _ & _ & _ &
        _ & Lw & (c1 & Hc1 & Hx1) & _ & _ & _ & Hfe).
  rewrite Hself in Hc1. injection Hc1 as <-.
  cbn in Hx1. injection Hx1 as <-.
  destruct (length_four w Lw) as (w0 & w1 & w2 & w3 & ->).
  eexists. split; [exact Hfe|].
  cbn [app extract_power nth_error].
  rewrite np_pow_half_nonneg by apply np_sum_square_nonneg. reflexivity.
Qed.

(** C5: output 9 is the variance of the single distance value raised to the
    power 0.25.  The variance of one real value is zero, so the output is 0
    whenever the distance is a real number, and in particular whenever the
    identity matrix stands in for the inverse. *)
Theorem distance_feature_is_zero (data data1 : list R) :
  length data = 256%nat -> data1 <> [] ->
  exists k1 k2 b1 b2 inv_cov dist row,
    firwin 467 [1; 30] true 128 = Ok k1 /\ np_convolve data k1 = Ok b1 /\
    firwin 467 [3; 12] true 128 = Ok k2 /\ np_convolve data k2 = Ok b2 /\
    try_except (np_linalg_inv lapack_inv (np_outer b1 b2)) LinAlgError
      (Ok (np_eye (length b1))) = Ok inv_cov /\
    mahalanobis b1 b2 inv_cov = Ok dist /\
    feature_extraction db4 lapack_inv data data1 = Ok [row] /\
    nth_error row 9 = Some (np_pow (np_var_scalar dist) (1 / 4)) /\
    (forall r, dist = Fin r -> nth_error row 9 = Some (Fin 0)) /\
    (np_linalg_inv lapack_inv (np_outer b1 b2) = Raise LinAlgError ->
     inv_cov = np_eye (length b1) /\ nth_error row 9 = Some (Fin 0)).
Proof.
  intros Hlen Hd1.
  destruct (feature_extraction_structure data data1 Hlen Hd1)
    as (k1 & k2 & b1 & b2 & w & x1 & x2 & ph & d & Hk1 & Lk1 & Hk2 & Lk2 &
        Hb1 & Hb2 & _ & Lw & _ & _ & _ & Hdist & Hfe).
  assert (Lb : length b1 = length b2).
  { rewrite (np_convolve_length _ _ _ Hb1), (np_convolve_length _ _ _ Hb2).
    rewrite Lk1, Lk2. reflexivity. }
  destruct (extract_mahalanobis_inv b1 b2 d Hdist)
    as (inv_cov & dist & Hinv & Hm & ->).
  destruct (length_four w Lw) as (w0 & w1 & w2 & w3 & ->).
  exists k1, k2, b1, b2, inv_cov, dist. eexists.
  repeat (split; [eassumption|]).
  cbn [app extract_power nth_error].
  split; [reflexivity|]. split.
  - intros r ->. rewrite np_pow_var_scalar_fin. reflexivity.
  - intros Hraise. rewrite Hraise in Hinv. cbn [try_except] in Hinv.
    injection Hinv as <-. split; [reflexivity|].
    destruct (mahalanobis_eye b1 b2 Lb) as (delta & _ & Hme).
    rewrite Hme in Hm. injection Hm as <-.
    rewrite np_pow_var_scalar_fin. reflexivity.
Qed.

Lemma mahalanobis_raises_value_error (u v : list R) (M : matrix) (e : exn) :
  mahalanobis u v M = Raise e -> e = ValueError.
Proof.
  unfold mahalanobis, np_sub, dot_vm, dot_vv.
  destruct (length u =? length v)%nat; cbn [bind].
  - destruct (length _ =? nrows M)%nat; cbn [bind]; [|congruence].
    destruct (length _ =? length _)%nat; cbn [bind]; [discriminate|congruence].
  - destruct u as [|x [|x' u]], v as [|y [|y' v]]; cbn [bind];
      try congruence;
      (destruct (length _ =? nrows M)%nat; cbn [bind]; [|congruence];
       destruct (length _ =? length _)%nat; cbn [bind];
       [discriminate|congruence]).
Qed.

Lemma np_linalg_inv_raises_linalg_error (M : matrix) (e : exn) :
  np_linalg_inv lapack_inv M = Raise e -> e = LinAlgError.
Proof.
  unfold np_linalg_inv. destruct (nrows M =? ncols M)%nat; [|congruence].
  destruct (lapack_inv _ _); [discriminate|congruence].
Qed.

Lemma np_linalg_inv_outer (b1 b2 : list R) (inv_cov : matrix) :
  np_linalg_inv lapack_inv (np_outer b1 b2) = Ok inv_cov ->
  length b1 = length b2 /\
  exists e,
    lapack_inv (length b1) (fun i j => nth i b1 0 * nth j b2 0) = Some e /\
    inv_cov = {| nrows := length b1; ncols := length b1; entry := e |}.
Proof.
  unfold np_linalg_inv. cbn [np_outer nrows ncols entry].
  destruct (Nat.eqb_spec (length b1) (length b2)) as [E|_]; [|discriminate].
  destruct (lapack_inv _ _) as [e|]; [|discriminate].
  intros H. injection H as <-. split; [exact E|].
  exists e. split; reflexivity.
Qed.

(** C6: the sub-extractor hands the outer product of the two filtered
    signals to the matrix inversion and is the distance feature computed
    with the matrix that comes back: the inverse when the inversion
    returns one (the answer of LAPACK on the entries [b1[i] * b2[j]]), and
    the identity matrix whose dimension is the length of the first signal
    when the inversion raises the singular-matrix error.  The inversion
    raises no other error, so the sub-extractor never raises it; on
    signals of the same length, which the filtered signals of one epoch
    are, it returns a value whatever the inversion answers, and with the
    identity the distance is the Euclidean norm of the difference of the
    signals and the value is 0. *)
Theorem singular_outer_product_uses_identity (b1 b2 : list R) :
  (forall inv_cov,
     np_linalg_inv lapack_inv (np_outer b1 b2) = Ok inv_cov ->
     extract_mahalanobis lapack_inv b1 b2 =
       (dist <- mahalanobis b1 b2 inv_cov ;;
        Ok (np_pow (np_var_scalar dist) (1 / 4))) /\
     exists e,
       lapack_inv (length b1) (fun i j => nth i b1 0 * nth j b2 0) = Some e /\
       inv_cov = {| nrows := length b1; ncols := length b1; entry := e |}) /\
  (forall e,
     np_linalg_inv lapack_inv (np_outer b1 b2) = Raise e ->
     e = LinAlgError /\
     extract_mahalanobis lapack_inv b1 b2 =
       (dist <- mahalanobis b1 b2 (np_eye (length b1)) ;;
        Ok (np_pow (np_var_scalar dist) (1 / 4)))) /\
  nrows (np_eye (length b1)) = length b1 /\
  ncols (np_eye (length b1)) = length b1 /\
  extract_mahalanobis lapack_inv b1 b2 <> Raise LinAlgError /\
  (length b1 = length b2 ->
   (exists v, extract_mahalanobis lapack_inv b1 b2 = Ok v) /\
   (np_linalg_inv lapack_inv (np_outer b1 b2) = Raise LinAlgError ->
    (exists delta,
       np_sub b1 b2 = Ok delta /\
       mahalanobis b1 b2 (np_eye (length b1)) =
         Ok (Fin (sqrt (np_sum (np_square delta))))) /\
    extract_mahalanobis lapack_inv b1 b2 = Ok (Fin 0))).
Proof.
  assert (Hraise : forall e,
            np_linalg_inv lapack_inv (np_outer b1 b2) = Raise e ->
            e = LinAlgError /\
            extract_mahalanobis lapack_inv b1 b2 =
              (dist <- mahalanobis b1 b2 (np_eye (length b1)) ;;
               Ok (np_pow (np_var_scalar dist) (1 / 4)))).
  { intros e H.
    pose proof (np_linalg_inv_raises_linalg_error _ _ H) as ->.
    split; [reflexivity|].
    unfold extract_mahalanobis. rewrite H. reflexivity. }
  assert (Hok : forall inv_cov,
            np_linalg_inv lapack_inv (np_outer b1 b2) = Ok inv_cov ->
            extract_mahalanobis lapack_inv b1 b2 =
              (dist <- mahalanobis b1 b2 inv_cov ;;
               Ok (np_pow (np_var_scalar dist) (1 / 4)))).
  { intros inv_cov H. unfold extract_mahalanobis. rewrite H. reflexivity. }
  split; [|split; [exact Hraise|]].
  { intros inv_cov H. split; [exact (Hok inv_cov H)|].
    apply (np_linalg_inv_outer b1 b2 inv_cov H). }
  split; [reflexivity|]. split; [reflexivity|]. split.
  - intros C.
    destruct (np_linalg_inv lapack_inv (np_outer b1 b2)) as [M|e] eqn:E.
    + rewrite (Hok M eq_refl) in C.
      destruct (mahalanobis b1 b2 M) as [dist|e'] eqn:Em;
        cbn [bind] in C; [discriminate|].
      apply mahalanobis_raises_value_error in Em. congruence.
    + destruct (Hraise e eq_refl) as [_ Eq]. rewrite Eq in C.
      destruct (mahalanobis b1 b2 (np_eye (length b1))) as [dist|e'] eqn:Em;
        cbn [bind] in C; [discriminate|].
      apply mahalanobis_raises_value_error in Em. congruence.
  - intros Hlen. split; [apply extract_mahalanobis_ok; exact Hlen|].
    intros H. split; [apply mahalanobis_eye; exact Hlen|].
    apply fallback_distance_zero; assumption.
Qed.

End Properties.

(** * The theorems at concrete inputs *)

Lemma ramp_epoch_length : length ramp_epoch = 256%nat.
Proof. reflexivity. Qed.

Lemma ramp_epoch_nonempty : ramp_epoch <> [].
Proof. apply (nonempty_of_length ramp_epoch 255). reflexivity. Qed.

Lemma db4_rounded_len : dec_len db4_rounded = 8%nat.
Proof. reflexivity. Qed.

Lemma wavelets_five_levels_drop_second_witness :
  dec_len db4_rounded = 8%nat /\ length ramp_epoch = 256%nat /\
  wavedec db4_rounded None ramp_epoch
    = wavedec db4_rounded (Some 5%nat) ramp_epoch /\
  exists w,
    extract_log_sum_wavelets db4_rounded ramp_epoch = Ok w /\
    length w = 4%nat.
Proof.
  split; [exact db4_rounded_len|]. split; [exact ramp_epoch_length|].
  destruct (wavelets_five_levels_drop_second db4_rounded db4_rounded_len
              ramp_epoch ramp_epoch_length)
    as (E & a1 & d1 & a2 & d2 & a3 & d3 & a4 & d4 & a5 & d5 &
        _ & _ & _ & _ & _ & _ & H).
  split; [exact E|]. eexists. split; [exact H|reflexivity].
Defined.

Lemma feature_extraction_one_row_of_ten_witness :
  dec_len db4_rounded = 8%nat /\ length ramp_epoch = 256%nat /\
  ramp_epoch <> [] /\
  exists row,
    feature_extraction db4_rounded inv_singular ramp_epoch ramp_epoch
      = Ok [row] /\
    length row = 10%nat.
Proof.
  split; [exact db4_rounded_len|]. split; [exact ramp_epoch_length|].
  split; [exact ramp_epoch_nonempty|].
  destruct (feature_extraction_one_row_of_ten db4_rounded inv_singular
              db4_rounded_len ramp_epoch ramp_epoch ramp_epoch_length
              ramp_epoch_nonempty)
    as (b1 & b2 & w & c & ph & d & _ & _ & _ & _ & _ & _ & _ & Hfe & L).
  eexists. split; [exact Hfe|exact L].
Defined.

Lemma filtered_signals_full_length_band_stop_witness :
  ramp_epoch <> [] /\
  exists k1 b1,
    firwin 467 [1; 30] true 128 = Ok k1 /\
    np_convolve ramp_epoch k1 = Ok b1 /\
    length b1 = (length ramp_epoch + 466)%nat /\
    firwin_bands [1; 30] true (128 / 2) = [(0, 1 / 64); (30 / 64, 1)].
Proof.
  split; [exact ramp_epoch_nonempty|].
  destruct (filtered_signals_full_length_band_stop ramp_epoch
              ramp_epoch_nonempty)
    as (k1 & k2 & b1 & b2 & Hk1 & _ & _ & _ & Hb1 & Lb1 & _ & _ & B & _).
  exists k1, b1. repeat split; assumption.
Defined.

Lemma power_features_unguarded_ratio_witness :
  dec_len db4_rounded = 8%nat /\ length ramp_epoch = 256%nat /\
  ramp_epoch <> [] /\
  exists row v4 v5,
    feature_extraction db4_rounded inv_singular ramp_epoch ramp_epoch
      = Ok [row] /\
    nth_error row 4 = Some v4 /\ nth_error row 5 = Some v5.
Proof.
  split; [exact db4_rounded_len|]. split; [exact ramp_epoch_length|].
  split; [exact ramp_epoch_nonempty|].
  destruct (power_features_unguarded_ratio db4_rounded inv_singular
              db4_rounded_len ramp_epoch ramp_epoch ramp_epoch_length
              ramp_epoch_nonempty)
    as (k1 & k2 & b1 & b2 & row & _ & _ & _ & _ & Hfe & H4 & H5 & _).
  exists row. eexists. eexists.
  split; [exact Hfe|]. split; [exact H4|exact H5].
Defined.

Lemma distance_feature_is_zero_witness :
  dec_len db4_rounded = 8%nat /\ length ramp_epoch = 256%nat /\
  ramp_epoch <> [] /\
  exists row,
    feature_extraction db4_rounded inv_singular ramp_epoch ramp_epoch
      = Ok [row] /\
    nth_error row 9 = Some (Fin 0).
Proof.
  split; [exact db4_rounded_len|]. split; [exact ramp_epoch_length|].
  split; [exact ramp_epoch_nonempty|].
  destruct (distance_feature_is_zero db4_rounded inv_singular
              db4_rounded_len ramp_epoch ramp_epoch ramp_epoch_length
              ramp_epoch_nonempty)
    as (k1 & k2 & b1 & b2 & inv_cov & dist & row & _ & Hb1 & _ & Hb2 & _ &
        _ & Hfe & _ & _ & Hfall).
  exists row. split; [exact Hfe|]. apply Hfall.
  unfold np_linalg_inv. cbn [np_outer nrows ncols entry inv_singular].
  destruct (length b1 =? length b2)%nat; reflexivity.
Defined.

Lemma singular_outer_product_uses_identity_witness :
  length [1; 2] = length [3; 5] /\
  np_linalg_inv inv_singular (np_outer [1; 2] [3; 5]) = Raise LinAlgError /\
  extract_mahalanobis inv_singular [1; 2] [3; 5] =
    (dist <- mahalanobis [1; 2] [3; 5] (np_eye 2) ;;
     Ok (np_pow (np_var_scalar dist) (1 / 4))) /\
  extract_mahalanobis inv_singular [1; 2] [3; 5] = Ok (Fin 0).
Proof.
  split; [reflexivity|]. split; [reflexivity|].
  destruct (singular_outer_product_uses_identity inv_singular [1; 2] [3; 5])
    as (_ & Hraise & _ & _ & _ & Hsame).
  destruct (Hraise LinAlgError eq_refl) as [_ Eq].
  destruct (Hsame eq_refl) as [_ Hzero].
  destruct (Hzero eq_refl) as [_ E].
  split; [exact Eq|exact E].
Defined.

Lemma self_correlation_is_root_sum_of_squares_witness :
  dec_len db4_rounded = 8%nat /\ length ramp_epoch = 256%nat /\
  exists row,
    feature_extraction db4_rounded inv_singular ramp_epoch ramp_epoch
      = Ok [row] /\
    nth_error row 6 = Some (Fin (sqrt (np_sum (np_square ramp_epoch)))).
Proof.
  split; [exact db4_rounded_len|]. split; [exact ramp_epoch_length|].
  destruct (self_correlation_is_root_sum_of_squares db4_rounded inv_singular
              db4_rounded_len ramp_epoch ramp_epoch_length) as (_ & H).
  exact H.
Defined.

Lemma only_first_correlation_reads_next_epoch_witness :
  dec_len db4_rounded = 8%nat /\ length ramp_epoch = 256%nat /\
  ramp_epoch <> [] /\ scale 2 ramp_epoch <> [] /\
  exists row row',
    feature_extraction db4_rounded inv_singular ramp_epoch ramp_epoch
      = Ok [row] /\
    feature_extraction db4_rounded inv_singular ramp_epoch
      (scale 2 ramp_epoch) = Ok [row'] /\
    length row = 10%nat /\ length row' = 10%nat /\
    forall i, i <> 6%nat -> nth_error row i = nth_error row' i.
Proof.
  assert (N : scale 2 ramp_epoch <> [])
    by (apply (nonempty_of_length _ 255); reflexivity).
  split; [exact db4_rounded_len|]. split; [exact ramp_epoch_length|].
  split; [exact ramp_epoch_nonempty|]. split; [exact N|].
  apply (only_first_correlation_reads_next_epoch db4_rounded inv_singular
           db4_rounded_len ramp_epoch ramp_epoch (scale 2 ramp_epoch)
           ramp_epoch_length ramp_epoch_nonempty N).
Defined.

(** A current epoch too short for two levels: the maximum level for four
    samples and eight coefficients is 0, no detail set is produced and
    [del wavelet_feat[1]] raises. *)
Example wavelets_need_two_levels :
  extract_log_sum_wavelets db4_rounded four_samples = Raise IndexError.
Proof. reflexivity. Qed.

(** With half an epoch the default level is 4, not 5. *)
Example half_epoch_max_level : dwt_max_level 128 8 = Ok 4%nat.
Proof. reflexivity. Qed.

(** * Epoch splitting: properties *)

(** ** Epoch windows *)

Lemma py_int_comp (x y : Q) : (x == y)%Q -> py_int x = py_int y.
Proof.
  intros E. unfold py_int. rewrite (Qleb_comp 0%Q 0%Q (Qeq_refl 0%Q) x y E).
  destruct (Qle_bool 0 y).
  - apply Qfloor_comp, E.
  - apply Qceiling_comp, E.
Qed.

Lemma py_int_inject (z : Z) : py_int (inject_Z z) = z.
Proof.
  unfold py_int. destruct (Qle_bool 0 (inject_Z z)).
  - apply Qfloor_Z.
  - apply Qceiling_Z.
Qed.

Lemma epoch_loop_run {B : Type} (len : nat) (fs duration step : Q)
  (body : Z -> Z -> B) (N : nat) :
  forall i : Q,
  (inject_Z (Z.of_nat len)
   < (i + inject_Z (Z.of_nat N) * step + duration) * fs)%Q ->
  exists n : nat,
    (n <= N)%nat /\
    epoch_loop (S N) len fs duration step body i
    = Some (map (fun k =>
                   body (py_int ((i + inject_Z (Z.of_nat k) * step) * fs))
                        (py_int ((i + inject_Z (Z.of_nat k) * step + duration)
                                 * fs)))
                (seq 0 n)) /\
    (forall k, (k < n)%nat ->
       ((i + inject_Z (Z.of_nat k) * step + duration) * fs
        <= inject_Z (Z.of_nat len))%Q) /\
    (inject_Z (Z.of_nat len)
     < (i + inject_Z (Z.of_nat n) * step + duration) * fs)%Q.
Proof.
  induction N as [|N IH]; intros i H.
  - exists 0%nat. cbn [epoch_loop].
    assert (E : ((i + inject_Z (Z.of_nat 0) * step + duration) * fs
                 == (i + duration) * fs)%Q) by (cbn; ring).
    rewrite E in H.
    destruct (Qle_bool ((i + duration) * fs) (inject_Z (Z.of_nat len))) eqn:C.
    + apply Qle_bool_iff in C. exfalso. apply (Qlt_not_le _ _ H C).
    + repeat split; [lia | intros k Hk; lia | rewrite E; exact H].
  - cbn [epoch_loop].
    destruct (Qle_bool ((i + duration) * fs) (inject_Z (Z.of_nat len))) eqn:C.
    + destruct (IH (i + step)%Q) as (n & Hn & Hrun & Hfit & Hend).
      { eapply Qlt_le_trans; [exact H|]. apply Qle_lteq. right.
        rewrite Nat2Z.inj_succ. unfold Z.succ. rewrite inject_Z_plus. ring. }
      exists (S n). split; [lia|]. split; [|split].
      * cbn [epoch_loop] in Hrun. rewrite Hrun.
        cbn [seq map]. f_equal. f_equal.
        -- f_equal; apply py_int_comp; cbn; ring.
        -- rewrite <- seq_shift, map_map. apply map_ext. intros k.
           f_equal; apply py_int_comp; rewrite Nat2Z.inj_succ;
             unfold Z.succ; rewrite inject_Z_plus; ring.
      * intros [|k] Hk.
        -- apply Qle_bool_iff in C. eapply Qle_trans; [|exact C].
           apply Qle_lteq. right. cbn. ring.
        -- eapply Qle_trans; [|apply (Hfit k); lia].
           apply Qle_lteq. right. rewrite Nat2Z.inj_succ. unfold Z.succ.
           rewrite inject_Z_plus. ring.
      * eapply Qlt_le_trans; [exact Hend|]. apply Qle_lteq. right.
        rewrite Nat2Z.inj_succ. unfold Z.succ. rewrite inject_Z_plus. ring.
    + exists 0%nat. repeat split; [lia | intros k Hk; lia |].
      apply Qnot_le_lt. intros L.
      assert (C' : Qle_bool ((i + duration) * fs) (inject_Z (Z.of_nat len))
                   = true).
      { apply Qle_bool_iff. eapply Qle_trans; [|exact L].
        apply Qle_lteq. right. cbn. ring. }
      congruence.
Qed.

Lemma epoch_loop_more_fuel {B : Type} (len : nat) (fs duration step : Q)
  (body : Z -> Z -> B) (fuel : nat) :
  forall (i : Q) (r : list B) (fuel' : nat),
  epoch_loop fuel len fs duration step body i = Some r ->
  (fuel <= fuel')%nat ->
  epoch_loop fuel' len fs duration step body i = Some r.
Proof.
  induction fuel as [|f IH]; intros i r fuel' H L; [discriminate|].
  destruct fuel' as [|f']; [lia|].
  cbn [epoch_loop] in *.
  destruct (Qle_bool ((i + duration) * fs) (inject_Z (Z.of_nat len)));
    [|exact H].
  destruct (epoch_loop f len fs duration step body (i + step)) eqn:E;
    [|discriminate].
  rewrite (IH _ _ f' E); [exact H | lia].
Qed.

Lemma epoch_loop_reaches_end (len : nat) (fs duration step i : Q) :
  (0 < fs)%Q -> (0 < step)%Q ->
  exists N : nat,
    (inject_Z (Z.of_nat len)
     < (i + inject_Z (Z.of_nat N) * step + duration) * fs)%Q.
Proof.
  intros Hfs Hstep.
  set (q := ((inject_Z (Z.of_nat len) - (i + duration) * fs)
             / (step * fs))%Q).
  exists (Z.to_nat (Qfloor q + 1)).
  assert (Hpos : (0 < step * fs)%Q).
  { rewrite <- (Qmult_0_l fs). apply Qmult_lt_compat_r; assumption. }
  assert (Hq : (q < inject_Z (Z.of_nat (Z.to_nat (Qfloor q + 1))))%Q).
  { eapply Qlt_le_trans; [apply Qlt_floor|].
    rewrite <- Zle_Qle. lia. }
  apply (Qmult_lt_compat_r _ _ _ Hpos) in Hq.
  assert (E : (q * (step * fs)
               == inject_Z (Z.of_nat len) - (i + duration) * fs)%Q).
  { unfold q. field. split; intros Z0.
    - rewrite Z0 in Hfs. exact (Qlt_irrefl _ Hfs).
    - rewrite Z0 in Hstep. exact (Qlt_irrefl _ Hstep). }
  rewrite E in Hq.
  apply (Qplus_lt_l _ _ ((i + duration) * fs)) in Hq.
  eapply Qle_lt_trans; [|eapply Qlt_le_trans; [exact Hq|]];
    apply Qle_lteq; right; ring.
Qed.

Lemma slice_bound_inside (n : nat) (a : nat) :
  (a <= n)%nat -> slice_bound n (Z.of_nat a) = a.
Proof.
  intros H. unfold slice_bound.
  destruct (Z.ltb_spec (Z.of_nat a) 0); [lia|].
  rewrite Nat2Z.id. lia.
Qed.

Lemma py_slice_inside {A : Type} (l : list A) (a b : nat) :
  (a <= b)%nat -> (b <= length l)%nat ->
  py_slice l (Z.of_nat a) (Z.of_nat b) = firstn (b - a) (skipn a l).
Proof.
  intros H1 H2. unfold py_slice.
  rewrite !slice_bound_inside by lia. reflexivity.
Qed.

Lemma epoch_loop_windows {B : Type} (len : nat) (fs duration step : Q)
  (body : Z -> Z -> B) :
  (0 < fs)%Q -> (0 < step)%Q ->
  exists fuel n : nat,
    (forall fuel', (fuel <= fuel')%nat ->
       epoch_loop fuel' len fs duration step body 0
       = Some (map (fun k =>
                      body (py_int (inject_Z (Z.of_nat k) * step * fs))
                           (py_int ((inject_Z (Z.of_nat k) * step + duration)
                                    * fs)))
                   (seq 0 n))) /\
    (forall k, (k < n)%nat ->
       ((inject_Z (Z.of_nat k) * step + duration) * fs
        <= inject_Z (Z.of_nat len))%Q) /\
    (inject_Z (Z.of_nat len)
     < (inject_Z (Z.of_nat n) * step + duration) * fs)%Q.
Proof.
  intros Hfs Hstep.
  destruct (epoch_loop_reaches_end len fs duration step 0 Hfs Hstep)
    as [N HN].
  destruct (epoch_loop_run len fs duration step body N 0%Q HN)
    as (n & _ & Hrun & Hfit & Hend).
  exists (S N), n. split; [|split].
  - intros fuel' L.
    rewrite (epoch_loop_more_fuel _ _ _ _ _ _ _ _ _ Hrun L).
    f_equal. apply map_ext. intros k.
    f_equal; apply py_int_comp; ring.
  - intros k Hk. eapply Qle_trans; [|exact (Hfit k Hk)].
    apply Qle_lteq. right. ring.
  - eapply Qlt_le_trans; [exact Hend|]. apply Qle_lteq. right. ring.
Qed.

(** When an epoch and a step are whole numbers of samples, [w] and [s],
    the loop visits the windows [k*s, k*s + w) that fit. *)
Lemma epoch_loop_whole {B : Type} (len w s : nat) (fs duration step : Q)
  (body : Z -> Z -> B) :
  (0 < fs)%Q -> (0 < s)%nat ->
  (duration * fs == inject_Z (Z.of_nat w))%Q ->
  (step * fs == inject_Z (Z.of_nat s))%Q ->
  exists fuel : nat,
    forall fuel', (fuel <= fuel')%nat ->
      epoch_loop fuel' len fs duration step body 0
      = Some (map (fun k => body (Z.of_nat (k * s)) (Z.of_nat (k * s + w)))
                  (seq 0 (if (len <? w)%nat then 0 else (len - w) / s + 1))).
Proof.
  intros Hfs Hs Hw Hstep.
  assert (Hpos : (0 < step)%Q).
  { destruct (Qlt_le_dec 0 step) as [P|P]; [exact P|exfalso].
    assert (L : (step * fs <= 0 * fs)%Q)
      by (apply Qmult_le_compat_r; [exact P | apply Qlt_le_weak, Hfs]).
    rewrite Hstep, Qmult_0_l in L.
    change 0%Q with (inject_Z 0) in L. rewrite <- Zle_Qle in L. lia. }
  assert (Ea : forall k, (inject_Z (Z.of_nat k) * step * fs
                          == inject_Z (Z.of_nat (k * s)))%Q).
  { intros k. rewrite Nat2Z.inj_mul, inject_Z_mult, <- Hstep. ring. }
  assert (Eb : forall k, ((inject_Z (Z.of_nat k) * step + duration) * fs
                          == inject_Z (Z.of_nat (k * s + w)))%Q).
  { intros k. rewrite Nat2Z.inj_add, inject_Z_plus, <- Ea, <- Hw. ring. }
  destruct (epoch_loop_windows len fs duration step body Hfs Hpos)
    as (fuel & n & Hrun & Hfit & Hend).
  exists fuel. intros fuel' L. rewrite (Hrun fuel' L). f_equal.
  assert (Hfit' : forall k, (k < n)%nat -> (k * s + w <= len)%nat).
  { intros k Hk. specialize (Hfit k Hk). rewrite Eb, <- Zle_Qle in Hfit.
    lia. }
  assert (Hend' : (len < n * s + w)%nat).
  { rewrite Eb, <- Zlt_Qlt in Hend. lia. }
  assert (En : n = if (len <? w)%nat then 0%nat else ((len - w) / s + 1)%nat).
  { destruct (Nat.ltb_spec len w) as [C|C].
    - destruct n as [|n]; [reflexivity|].
      specialize (Hfit' 0%nat ltac:(lia)). lia.
    - destruct n as [|n]; [lia|].
      specialize (Hfit' n ltac:(lia)).
      rewrite (Nat.div_unique (len - w) s n (len - w - s * n)); lia. }
  rewrite <- En. apply map_ext. intros k.
  rewrite (py_int_comp _ _ (Ea k)), (py_int_comp _ _ (Eb k)),
    !py_int_inject.
  reflexivity.
Qed.

Lemma split_data_channels {A : Type} (P : list A -> list (list A) -> Prop)
  (data : list (list A)) (fs duration overlap : Q) :
  (forall channel, In channel data ->
     exists fuel eps,
       P channel eps /\
       forall fuel', (fuel <= fuel')%nat ->
         epoch_loop fuel' (length channel) fs duration
           (duration - overlap * duration / 100) (py_slice channel) 0
         = Some eps) ->
  exists fuel epochs,
    (forall fuel', (fuel <= fuel')%nat ->
       split_data fuel' data fs duration overlap = Some epochs) /\
    Forall2 P data epochs.
Proof.
  induction data as [|channel rest IH]; intros H.
  - exists 0%nat, []. split; [reflexivity | constructor].
  - destruct (H channel (or_introl eq_refl)) as (f1 & eps & HP & Hrun).
    destruct IH as (f2 & es & Hrest & HF).
    { intros c Hc. apply H. right. exact Hc. }
    exists (Nat.max f1 f2), (eps :: es). split.
    + intros fuel' L. cbn [split_data].
      rewrite (Hrun fuel') by lia. rewrite (Hrest fuel') by lia.
      reflexivity.
    + constructor; assumption.
Qed.

Lemma firstn_plus {A : Type} (a b : nat) :
  forall l : list A, firstn (a + b) l = firstn a l ++ firstn b (skipn a l).
Proof.
  induction a as [|a IH]; intros l; [reflexivity|].
  destruct l as [|x l]; [destruct b; reflexivity|].
  cbn. rewrite IH. reflexivity.
Qed.

Lemma concat_windows {A : Type} (l : list A) (w n : nat) :
  (n * w <= length l)%nat ->
  concat (map (fun k => firstn w (skipn (k * w) l)) (seq 0 n))
  = firstn (n * w) l.
Proof.
  induction n as [|n IH]; intros H; [reflexivity|].
  rewrite seq_S, map_app, concat_app, IH by lia.
  cbn [map concat Nat.add]. rewrite app_nil_r.
  replace (S n * w)%nat with (n * w + w)%nat by lia.
  rewrite firstn_plus. reflexivity.
Qed.

Lemma step_positive (duration overlap : Q) :
  (overlap * duration / 100 < duration)%Q ->
  (0 < duration - overlap * duration / 100)%Q.
Proof.
  intros H. apply (Qplus_lt_l _ _ (overlap * duration / 100)).
  eapply Qle_lt_trans; [|eapply Qlt_le_trans; [exact H|]];
    apply Qle_lteq; right; ring.
Qed.

Lemma whole_windows {A : Type} (channel : list A) (w s : nat) (n : nat) :
  (forall k, (k < n)%nat -> (k * s + w <= length channel)%nat) ->
  map (fun k => py_slice channel (Z.of_nat (k * s)) (Z.of_nat (k * s + w)))
      (seq 0 n)
  = map (fun k => firstn w (skipn (k * s) channel)) (seq 0 n).
Proof.
  intros H. apply map_ext_in. intros k Hk. apply in_seq in Hk.
  rewrite py_slice_inside by (specialize (H k); lia).
  f_equal. lia.
Qed.

Lemma whole_count_fits (len w s k : nat) :
  (0 < s)%nat ->
  (k < (if (len <? w)%nat then 0 else (len - w) / s + 1))%nat ->
  (k * s + w <= len)%nat.
Proof.
  intros Hs Hk. destruct (Nat.ltb_spec len w) as [C|C]; [lia|].
  assert (k <= (len - w) / s)%nat by lia.
  assert (s * ((len - w) / s) <= len - w)%nat
    by apply Nat.Div0.mul_div_le.
  nia.
Qed.

Lemma split_data_whole_channels {A : Type} (data : list (list A))
  (fs duration overlap : Q) (w s : nat) :
  (0 < fs)%Q -> (0 < s)%nat ->
  (duration * fs == inject_Z (Z.of_nat w))%Q ->
  ((duration - overlap * duration / 100) * fs == inject_Z (Z.of_nat s))%Q ->
  exists fuel epochs,
    (forall fuel', (fuel <= fuel')%nat ->
       split_data fuel' data fs duration overlap = Some epochs) /\
    Forall2 (fun channel eps =>
      eps = map (fun k => firstn w (skipn (k * s) channel))
              (seq 0 (if (length channel <? w)%nat then 0
                      else (length channel - w) / s + 1)))
      data epochs.
Proof.
  intros Hfs Hs Hw Hstep. apply split_data_channels. intros channel _.
  destruct (epoch_loop_whole (length channel) w s fs duration
              (duration - overlap * duration / 100) (py_slice channel)
              Hfs Hs Hw Hstep) as [fuel Hrun].
  exists fuel. eexists. split; [reflexivity|].
  intros fuel' L. rewrite (Hrun fuel' L). f_equal.
  apply whole_windows. intros k Hk.
  apply whole_count_fits; assumption.
Qed.

(** ** Whole numbers of seconds and samples *)

Lemma whole_numbers (fs duration overlap : Q) (f d st : nat) :
  (fs == inject_Z (Z.of_nat f))%Q ->
  (duration == inject_Z (Z.of_nat d))%Q ->
  (duration - overlap * duration / 100 == inject_Z (Z.of_nat st))%Q ->
  (0 < f)%nat ->
  (0 < fs)%Q /\
  (duration * fs == inject_Z (Z.of_nat (d * f)))%Q /\
  ((duration - overlap * duration / 100) * fs
   == inject_Z (Z.of_nat (st * f)))%Q.
Proof.
  intros Hfs Hd Hst Hf. split; [|split].
  - rewrite Hfs. change 0%Q with (inject_Z 0). rewrite <- Zlt_Qlt. lia.
  - rewrite Hfs, Hd, Nat2Z.inj_mul, inject_Z_mult. reflexivity.
  - rewrite Hfs, Hst, Nat2Z.inj_mul, inject_Z_mult. reflexivity.
Qed.

(** X2: when the sampling rate, the duration and the step are whole
    numbers [f], [d] and [st >= 1], an epoch is [d*f] samples and the step
    [st*f] samples: a channel of [len] samples gives no epoch if
    [len < d*f] and [(len - d*f) / (st*f) + 1] epochs otherwise; every
    epoch has exactly [d*f] samples, and sample [j] of epoch [k] is sample
    [k*st*f + j] of the channel.  The bounds (2^46, so that a hundred
    times a number of seconds stays below 2^53) keep every value the loop
    computes a whole number that float64 holds exactly: there the counter
    of [epoch_loop] is the counter of the program. *)
Theorem split_data_whole_samples {A : Type} (data : list (list A))
  (fs duration overlap : Q) (f d st : nat) :
  (fs == inject_Z (Z.of_nat f))%Q ->
  (duration == inject_Z (Z.of_nat d))%Q ->
  (duration - overlap * duration / 100 == inject_Z (Z.of_nat st))%Q ->
  (0 < f)%nat -> (0 < st)%nat -> (Z.of_nat st < 2 ^ 46)%Z ->
  Forall (fun channel => (Z.of_nat (length channel) < 2 ^ 46)%Z) data ->
  exists fuel epochs,
    split_data fuel data fs duration overlap = Some epochs /\
    Forall2 (fun channel eps =>
      length eps = (if (length channel <? d * f)%nat then 0
                    else (length channel - d * f) / (st * f) + 1)%nat /\
      forall k, (k < length eps)%nat ->
        length (nth k eps []) = (d * f)%nat /\
        forall j, (j < d * f)%nat ->
          nth_error (nth k eps []) j
          = nth_error channel (k * (st * f) + j))
      data epochs.
Proof.
  intros Hfs Hd Hst Hf Hs _ _.
  destruct (whole_numbers fs duration overlap f d st Hfs Hd Hst Hf)
    as (Hpos & Hw & Hstep).
  assert (Hs' : (0 < st * f)%nat) by nia.
  destruct (split_data_whole_channels data fs duration overlap
              (d * f) (st * f) Hpos Hs' Hw Hstep)
    as (fuel & epochs & Hrun & HF).
  exists fuel, epochs. split; [apply Hrun; lia|].
  eapply Forall2_impl; [|exact HF].
  intros channel eps ->. rewrite length_map, length_seq.
  split; [reflexivity|]. intros k Hk.
  pose proof (whole_count_fits _ _ _ _ Hs' Hk) as Hfit.
  rewrite (nth_indep _ [] (firstn (d * f) (skipn (0 * (st * f)) channel)))
    by (rewrite length_map, length_seq; exact Hk).
  rewrite (map_nth (fun k => firstn (d * f) (skipn (k * (st * f)) channel))),
    seq_nth by exact Hk.
  cbn [Nat.add]. split.
  - rewrite length_firstn, length_skipn. lia.
  - intros j Hj. rewrite nth_error_firstn.
    destruct (Nat.ltb_spec j (d * f)); [|lia].
    apply nth_error_skipn.
Qed.

(** X3: with [overlap = 0] the epochs of a channel, put end to end, are
    the channel without its last [len mod w] samples: nothing is repeated
    and only an incomplete last epoch is dropped. *)
Theorem split_data_tiles_without_overlap {A : Type} (data : list (list A))
  (fs duration : Q) (w : nat) :
  (0 < fs)%Q -> (0 < w)%nat ->
  (duration * fs == inject_Z (Z.of_nat w))%Q ->
  exists fuel epochs,
    split_data fuel data fs duration 0 = Some epochs /\
    Forall2 (fun channel eps =>
      concat eps = firstn (length channel / w * w) channel)
      data epochs.
Proof.
  intros Hfs Hw Hd.
  destruct (split_data_whole_channels data fs duration 0 w w Hfs Hw Hd)
    as (fuel & epochs & Hrun & HF).
  { rewrite <- Hd. field. }
  exists fuel, epochs. split; [apply Hrun; lia|].
  eapply Forall2_impl; [|exact HF].
  intros channel eps ->.
  assert (E : (if (length channel <? w)%nat then 0
               else (length channel - w) / w + 1)%nat
              = (length channel / w)%nat).
  { destruct (Nat.ltb_spec (length channel) w) as [C|C].
    - symmetry. apply Nat.div_small. exact C.
    - replace (length channel) with ((length channel - w) + 1 * w)%nat
        at 2 by lia.
      rewrite Nat.div_add by lia. reflexivity. }
  rewrite E. apply concat_windows.
  rewrite Nat.mul_comm. apply Nat.Div0.mul_div_le.
Qed.

Lemma epoch_loop_stuck {B : Type} (len : nat) (fs duration step : Q)
  (body : Z -> Z -> B) :
  (0 < fs)%Q -> (step <= 0)%Q ->
  (duration * fs <= inject_Z (Z.of_nat len))%Q ->
  forall (fuel : nat) (i : Q), (i <= 0)%Q ->
    epoch_loop fuel len fs duration step body i = None.
Proof.
  intros Hfs Hstep Hlen. induction fuel as [|f IH]; intros i Hi;
    [reflexivity|].
  cbn [epoch_loop].
  assert (C : Qle_bool ((i + duration) * fs) (inject_Z (Z.of_nat len))
              = true).
  { apply Qle_bool_iff. eapply Qle_trans; [|exact Hlen].
    apply Qmult_le_compat_r; [|apply Qlt_le_weak, Hfs].
    rewrite <- (Qplus_0_l duration) at 2.
    apply Qplus_le_compat; [exact Hi | apply Qle_refl]. }
  rewrite C, IH; [reflexivity|].
  rewrite <- (Qplus_0_l 0). apply Qplus_le_compat; assumption.
Qed.

(** ** The event mask *)

Lemma update_length (mask : list bool) (k : nat) :
  (k < length mask)%nat ->
  length (firstn k mask ++ true :: skipn (S k) mask) = length mask.
Proof.
  intros H. rewrite length_app, length_firstn. cbn [length].
  rewrite length_skipn. lia.
Qed.

Lemma update_nth (mask : list bool) (k j : nat) :
  (k < length mask)%nat ->
  nth j (firstn k mask ++ true :: skipn (S k) mask) false
  = (j =? k)%nat || nth j mask false.
Proof.
  intros H.
  assert (Lk : length (firstn k mask) = k) by (rewrite length_firstn; lia).
  destruct (Nat.lt_trichotomy j k) as [C|[C|C]].
  - rewrite app_nth1 by lia.
    rewrite nth_firstn. destruct (Nat.ltb_spec j k); [|lia].
    destruct (Nat.eqb_spec j k); [lia|]. reflexivity.
  - subst j. rewrite app_nth2 by lia. rewrite Lk, Nat.sub_diag.
    rewrite Nat.eqb_refl. reflexivity.
  - rewrite app_nth2 by lia. rewrite Lk.
    destruct (j - k)%nat as [|d] eqn:E; [lia|]. cbn [nth].
    rewrite nth_skipn. destruct (Nat.eqb_spec j k); [lia|].
    cbn [orb]. f_equal. lia.
Qed.

Lemma set_true_inside (mask : list bool) (i : Z) :
  (- Z.of_nat (length mask) <= i < Z.of_nat (length mask))%Z ->
  exists m,
    set_true mask i = Ok m /\ length m = length mask /\
    forall j, nth j m false
              = (Z.of_nat j
                 =? (if (i <? 0)%Z then i + Z.of_nat (length mask) else i))%Z
                || nth j mask false.
Proof.
  intros H. unfold set_true.
  destruct (Z.leb_spec 0 i); destruct (Z.ltb_spec i (Z.of_nat (length mask)));
    destruct (Z.leb_spec (- Z.of_nat (length mask)) i);
    destruct (Z.ltb_spec i 0); cbn [andb]; try lia;
    (eexists; split; [reflexivity|]; split;
     [apply update_length; lia
     |intros j; rewrite update_nth by lia; f_equal;
      match goal with
      | |- (j =? ?a)%nat = (Z.of_nat j =? ?b)%Z =>
          destruct (Nat.eqb_spec j a); destruct (Z.eqb_spec (Z.of_nat j) b);
          try reflexivity; lia
      end]).
Qed.

Lemma set_true_outside (mask : list bool) (i : Z) :
  ~ (- Z.of_nat (length mask) <= i < Z.of_nat (length mask))%Z ->
  set_true mask i = Raise IndexError.
Proof.
  intros H. unfold set_true.
  destruct (Z.leb_spec 0 i); destruct (Z.ltb_spec i (Z.of_nat (length mask)));
    destruct (Z.leb_spec (- Z.of_nat (length mask)) i);
    destruct (Z.ltb_spec i 0); cbn [andb]; try reflexivity; lia.
Qed.

Lemma mark_range_inside (count : nat) :
  forall (mask : list bool) (start : Z),
  (count = 0%nat \/
   (- Z.of_nat (length mask) <= start /\
    start + Z.of_nat count <= Z.of_nat (length mask))%Z) ->
  exists m,
    mark_range mask start count = Ok m /\ length m = length mask /\
    forall j, nth j m false = true <->
      (nth j mask false = true \/
       exists i, (start <= i < start + Z.of_nat count)%Z /\
         Z.of_nat j
         = (if (i <? 0)%Z then i + Z.of_nat (length mask) else i)%Z).
Proof.
  induction count as [|c IH]; intros mask start H.
  - exists mask. split; [reflexivity|]. split; [reflexivity|].
    intros j. split; [intros E; left; exact E|].
    intros [E|(i & Hi & _)]; [exact E|lia].
  - destruct H as [H|[H1 H2]]; [discriminate|].
    destruct (set_true_inside mask start) as (m1 & E1 & L1 & N1); [lia|].
    destruct (IH m1 (start + 1)%Z) as (m & E & L & N).
    { right. rewrite L1. lia. }
    exists m. cbn [mark_range]. rewrite E1. cbn [bind]. rewrite E.
    split; [reflexivity|]. split; [congruence|].
    intros j. rewrite N, N1, L1. rewrite orb_true_iff, Z.eqb_eq.
    split.
    + intros [[Hj|Hj]|(i & Hi & Hj)].
      * right. exists start. split; [lia|exact Hj].
      * left. exact Hj.
      * right. exists i. split; [lia|exact Hj].
    + intros [Hj|(i & Hi & Hj)].
      * left. right. exact Hj.
      * destruct (Z.eq_dec i start) as [->|D].
        -- left. left. exact Hj.
        -- right. exists i. split; [lia|exact Hj].
Qed.

Lemma mark_range_outside (count : nat) :
  forall (mask : list bool) (start : Z),
  (0 < count)%nat ->
  (start < - Z.of_nat (length mask) \/
   Z.of_nat (length mask) < start + Z.of_nat count)%Z ->
  mark_range mask start count = Raise IndexError.
Proof.
  induction count as [|c IH]; intros mask start Hc H; [lia|].
  cbn [mark_range].
  destruct (Z_lt_dec start (- Z.of_nat (length mask))) as [C|C].
  { rewrite set_true_outside by lia. reflexivity. }
  destruct (Z_lt_dec start (Z.of_nat (length mask))) as [C1|C1].
  - destruct (set_true_inside mask start) as (m1 & E1 & L1 & _); [lia|].
    rewrite E1. cbn [bind]. apply IH; [|rewrite L1]; lia.
  - rewrite set_true_outside by lia. reflexivity.
Qed.

Lemma mark_range_raise (count : nat) :
  forall (mask : list bool) (start : Z) (e : exn),
  mark_range mask start count = Raise e -> e = IndexError.
Proof.
  induction count as [|c IH]; intros mask start e H; [discriminate|].
  cbn [mark_range] in H. unfold set_true in H.
  repeat match type of H with
         | context [if ?b then _ else _] => destruct b
         end; cbn [bind] in H;
    first [congruence | exact (IH _ _ _ H)].
Qed.

Lemma mark_range_length (count : nat) (mask m : list bool) (start : Z) :
  mark_range mask start count = Ok m -> length m = length mask.
Proof.
  intros H. destruct count as [|c].
  - cbn in H. congruence.
  - destruct (Z_lt_dec start (- Z.of_nat (length mask))) as [C|C].
    { rewrite mark_range_outside in H by lia. discriminate. }
    destruct (Z_lt_dec (Z.of_nat (length mask))
                (start + Z.of_nat (S c))) as [C1|C1].
    { rewrite mark_range_outside in H by lia. discriminate. }
    destruct (mark_range_inside (S c) mask start) as (m' & E & L & _);
      [right; lia|].
    congruence.
Qed.

Lemma mark_events_inside (fs : Q) (events : list (list Q)) :
  forall mask : list bool,
  Forall (fun event => exists s e rest,
            event = s :: e :: rest /\
            (py_int (e * fs) <= py_int (s * fs) \/
             - Z.of_nat (length mask) <= py_int (s * fs) /\
             py_int (e * fs) <= Z.of_nat (length mask))%Z) events ->
  exists m,
    mark_events mask events fs = Ok m /\ length m = length mask /\
    forall j, nth j m false = true <->
      (nth j mask false = true \/
       exists s e rest i,
         In (s :: e :: rest) events /\
         (py_int (s * fs) <= i < py_int (e * fs))%Z /\
         Z.of_nat j
         = (if (i <? 0)%Z then i + Z.of_nat (length mask) else i)%Z).
Proof.
  induction events as [|event events IH]; intros mask H.
  - exists mask. split; [reflexivity|]. split; [reflexivity|].
    intros j. split; [intros E; left; exact E|].
    intros [E|(s & e & rest & i & [] & _)]. exact E.
  - inversion H as [|x l (s & e & rest & -> & Hb) HF]; subst.
    cbn [mark_events index nth_error bind].
    destruct (mark_range_inside (Z.to_nat (py_int (e * fs) - py_int (s * fs)))
                mask (py_int (s * fs))) as (m1 & E1 & L1 & N1).
    { destruct (Z_le_dec (py_int (e * fs)) (py_int (s * fs)));
        [left|right]; lia. }
    rewrite E1. cbn [bind].
    destruct (IH m1) as (m & E & L & N).
    { rewrite L1. exact HF. }
    exists m. split; [exact E|]. split; [congruence|].
    intros j. rewrite N, N1, L1. split.
    + intros [[Hj|(i & Hi & Hj)]|(s' & e' & rest' & i & Hin & Hi & Hj)].
      * left. exact Hj.
      * right. exists s, e, rest, i. split; [left; reflexivity|].
        split; [lia|exact Hj].
      * right. exists s', e', rest', i. split; [right; exact Hin|].
        split; assumption.
    + intros [Hj|(s' & e' & rest' & i & [Hin|Hin] & Hi & Hj)].
      * left. left. exact Hj.
      * injection Hin as -> -> ->. left. right. exists i.
        split; [lia|exact Hj].
      * right. exists s', e', rest', i.
        split; [exact Hin | split; assumption].
Qed.

Lemma mark_events_raise (fs : Q) (events : list (list Q)) :
  forall (mask : list bool) (x : exn),
  mark_events mask events fs = Raise x -> x = IndexError.
Proof.
  induction events as [|event events IH]; intros mask x H; [discriminate|].
  cbn [mark_events] in H. unfold index in H.
  destruct (nth_error event 0); cbn [bind] in H; [|congruence].
  destruct (nth_error event 1); cbn [bind] in H; [|congruence].
  destruct (mark_range mask _ _) as [m1|x1] eqn:E1; cbn [bind] in H.
  - exact (IH _ _ H).
  - injection H as <-. exact (mark_range_raise _ _ _ _ E1).
Qed.

Lemma mark_events_ok_inv (fs : Q) (events : list (list Q)) :
  forall (mask m : list bool),
  mark_events mask events fs = Ok m ->
  forall s e rest, In (s :: e :: rest) events ->
    (py_int (s * fs) < py_int (e * fs))%Z ->
    (- Z.of_nat (length mask) <= py_int (s * fs) /\
     py_int (e * fs) <= Z.of_nat (length mask))%Z.
Proof.
  induction events as [|event events IH]; intros mask m H s e rest Hin Hlt;
    [contradiction|].
  cbn [mark_events] in H. unfold index in H.
  destruct (nth_error event 0) as [e0|] eqn:E0; cbn [bind] in H;
    [|discriminate].
  destruct (nth_error event 1) as [e1|] eqn:E1; cbn [bind] in H;
    [|discriminate].
  destruct (mark_range mask _ _) as [m1|x1] eqn:Em; cbn [bind] in H;
    [|discriminate].
  destruct Hin as [->|Hin].
  - cbn in E0, E1. injection E0 as <-. injection E1 as <-.
    destruct (Z_lt_dec (py_int (s * fs)) (- Z.of_nat (length mask)))
      as [C|C].
    { rewrite mark_range_outside in Em by lia. discriminate. }
    destruct (Z_lt_dec (Z.of_nat (length mask)) (py_int (e * fs)))
      as [C1|C1].
    { rewrite mark_range_outside in Em by lia. discriminate. }
    lia.
  - rewrite <- (mark_range_length _ _ _ _ Em).
    exact (IH _ _ H _ _ _ Hin Hlt).
Qed.



(** ** Labels *)

Lemma mark_events_length (fs : Q) (events : list (list Q)) :
  forall mask m : list bool,
  mark_events mask events fs = Ok m -> length m = length mask.
Proof.
  induction events as [|event events IH]; intros mask m H.
  - cbn in H. congruence.
  - cbn [mark_events] in H.
    destruct (index event 0); cbn [bind] in H; [|discriminate].
    destruct (index event 1); cbn [bind] in H; [|discriminate].
    destruct (mark_range mask _ _) as [m1|] eqn:E; cbn [bind] in H;
      [|discriminate].
    rewrite (IH _ _ H). exact (mark_range_length _ _ _ _ E).
Qed.

Lemma epoch_loop_map {B : Type} (len : nat) (fs duration step : Q)
  (body : Z -> Z -> B) (fuel : nat) :
  forall i : Q,
  epoch_loop fuel len fs duration step body i
  = option_map (map (fun p => body (fst p) (snd p)))
      (epoch_loop fuel len fs duration step pair i).
Proof.
  induction fuel as [|f IH]; intros i; [reflexivity|].
  cbn [epoch_loop]. destruct (Qle_bool _ _); [|reflexivity].
  rewrite IH. destruct (epoch_loop f len fs duration step pair (i + step));
    reflexivity.
Qed.


Lemma split_annotations_whole (events : list (list Q)) (dataLen : nat)
  (fs percentage duration overlap : Q) (w s : nat) (mask : list bool) :
  (0 < fs)%Q -> (0 < s)%nat ->
  (duration * fs == inject_Z (Z.of_nat w))%Q ->
  ((duration - overlap * duration / 100) * fs == inject_Z (Z.of_nat s))%Q ->
  _eventList2Mask events dataLen fs = Ok mask ->
  exists fuel,
    forall fuel', (fuel <= fuel')%nat ->
      split_annotations fuel' events dataLen fs percentage duration overlap
      = Ok (Some
          (map (fun k =>
                  Qle_bool (duration * fs * percentage / 100)
                    (inject_Z
                       (Z.of_nat
                          (count_true (firstn w (skipn (k * s) mask))))))
               (seq 0 (if (dataLen <? w)%nat then 0
                       else (dataLen - w) / s + 1)))).
Proof.
  intros Hfs Hs Hw Hstep Hmask.
  assert (Lm : length mask = dataLen).
  { unfold _eventList2Mask in Hmask.
    rewrite (mark_events_length _ _ _ _ Hmask). apply repeat_length. }
  destruct (epoch_loop_whole dataLen w s fs duration
              (duration - overlap * duration / 100)
              (fun a b =>
                 Qle_bool (duration * fs * percentage / 100)
                   (inject_Z (Z.of_nat (count_true (py_slice mask a b)))))
              Hfs Hs Hw Hstep) as [fuel Hrun].
  exists fuel. intros fuel' L. unfold split_annotations.
  rewrite Hmask. cbn [bind]. rewrite Lm, (Hrun fuel' L).
  do 2 f_equal. apply map_ext_in. intros k Hk. apply in_seq in Hk.
  rewrite py_slice_inside;
    [replace (k * s + w - k * s)%nat with w by lia; reflexivity | lia |].
  rewrite Lm. apply whole_count_fits with (s := s); [exact Hs|lia].
Qed.

Lemma count_true_all (l : list bool) :
  (forall j, (j < length l)%nat -> nth j l false = true) ->
  count_true l = length l.
Proof.
  unfold count_true. induction l as [|b l IH]; intros H; [reflexivity|].
  pose proof (H 0%nat ltac:(cbn; lia)) as H0. cbn in H0. subst b.
  cbn [filter length]. f_equal. apply IH. intros j Hj.
  apply (H (S j)). cbn. lia.
Qed.

Lemma count_true_none (l : list bool) :
  (forall j, (j < length l)%nat -> nth j l false = false) ->
  count_true l = 0%nat.
Proof.
  unfold count_true. induction l as [|b l IH]; intros H; [reflexivity|].
  pose proof (H 0%nat ltac:(cbn; lia)) as H0. cbn in H0. subst b.
  cbn [filter]. apply IH. intros j Hj. apply (H (S j)). cbn. lia.
Qed.

Lemma window_nth (mask : list bool) (w a j : nat) :
  (a + w <= length mask)%nat -> (j < w)%nat ->
  nth j (firstn w (skipn a mask)) false = nth (a + j) mask false.
Proof.
  intros H Hj. rewrite nth_firstn. destruct (Nat.ltb_spec j w); [|lia].
  apply nth_skipn.
Qed.

Lemma window_length (mask : list bool) (w a : nat) :
  (a + w <= length mask)%nat -> length (firstn w (skipn a mask)) = w.
Proof.
  intros H. rewrite length_firstn, length_skipn. lia.
Qed.

Lemma whole_count_index (len w s k : nat) :
  (0 < s)%nat -> (k * s + w <= len)%nat ->
  (k < (if (len <? w)%nat then 0 else (len - w) / s + 1))%nat.
Proof.
  intros Hs H. destruct (Nat.ltb_spec len w); [lia|].
  assert (k <= (len - w) / s)%nat
    by (apply Nat.div_le_lower_bound; lia).
  lia.
Qed.

Lemma threshold_reached (duration fs percentage : Q) (w : nat) :
  (duration * fs == inject_Z (Z.of_nat w))%Q -> (percentage <= 100)%Q ->
  Qle_bool (duration * fs * percentage / 100) (inject_Z (Z.of_nat w)) = true.
Proof.
  intros Hw Hp. apply Qle_bool_iff. rewrite Hw.
  assert (H0 : (0 <= inject_Z (Z.of_nat w))%Q)
    by (change 0%Q with (inject_Z 0); rewrite <- Zle_Qle; lia).
  apply Qle_shift_div_r; [reflexivity|].
  assert (H : (0 <= inject_Z (Z.of_nat w) * (100 - percentage))%Q)
    by (apply Qmult_le_0_compat; Lqa.lra).
  Lqa.lra.
Qed.

Lemma threshold_missed (duration fs percentage : Q) (w : nat) :
  (duration * fs == inject_Z (Z.of_nat w))%Q -> (0 < w)%nat ->
  (0 < percentage)%Q ->
  Qle_bool (duration * fs * percentage / 100) (inject_Z (Z.of_nat 0)) = false.
Proof.
  intros Hw Hpos Hp. apply not_true_is_false. intros C.
  apply Qle_bool_iff in C. rewrite Hw in C.
  assert (H0 : (0 < inject_Z (Z.of_nat w))%Q)
    by (change 0%Q with (inject_Z 0); rewrite <- Zlt_Qlt; lia).
  assert (H : (0 < inject_Z (Z.of_nat w) * percentage / 100)%Q).
  { apply Qlt_shift_div_l; [reflexivity|].
    rewrite Qmult_0_l. apply Qmult_lt_0_compat; assumption. }
  change (inject_Z (Z.of_nat 0)) with 0%Q in C.
  exact (Qlt_not_le _ _ H C).
Qed.

Lemma threshold_positive (duration fs percentage : Q) (w : nat) :
  (duration * fs == inject_Z (Z.of_nat w))%Q -> (0 < w)%nat ->
  (1 <= percentage)%Q ->
  Qle_bool (duration * fs * percentage / 100) (inject_Z (Z.of_nat 0)) = false.
Proof.
  intros Hw Hpos Hp. apply threshold_missed with (w := w); try assumption.
  eapply Qlt_le_trans; [|exact Hp]. reflexivity.
Qed.



(** * The driver loop: properties *)

Lemma py_slice_drop_last_two {A : Type} (l : list A) :
  py_slice l 0 (-2) = firstn (length l - 2) l.
Proof.
  unfold py_slice, slice_bound. cbn [Z.ltb Z.compare Z.to_nat Nat.min].
  rewrite Nat.sub_0_r. cbn [skipn]. f_equal. lia.
Qed.

Section DriverProperties.

Variable db4 : Wavelet.
Variable lapack_inv : nat -> (nat -> nat -> R) -> option (nat -> nat -> R).
Hypothesis db4_len : dec_len db4 = 8%nat.

Lemma feature_extraction_row (data data1 : list R) :
  length data = 256%nat -> data1 <> [] ->
  exists row,
    feature_extraction db4 lapack_inv data data1 = Ok [row] /\
    length row = 10%nat.
Proof.
  intros Hlen Hd1.
  destruct (feature_extraction_structure db4 lapack_inv db4_len data data1
              Hlen Hd1)
    as (k1 & k2 & b1 & b2 & w & x1 & x2 & ph & d & H).
  destruct H as (_ & _ & _ & _ & _ & _ & _ & Lw & _ & _ & _ & _ & Hfe).
  eexists. split; [exact Hfe|].
  rewrite length_app, Lw. reflexivity.
Qed.

Lemma channel_features_rows (i : nat) (data : list (list (list R))) :
  Forall (fun channel =>
            (S i < length channel)%nat /\
            Forall (fun e => length e = 256%nat) channel) data ->
  exists rows,
    channel_features db4 lapack_inv data i = Ok rows /\
    Forall2 (fun channel row =>
               feature_extraction db4 lapack_inv (nth i channel [])
                 (nth (S i) channel []) = Ok [row] /\
               length row = 10%nat) data rows.
Proof.
  induction data as [|channel data IH]; intros H.
  - exists []. split; [reflexivity|constructor].
  - inversion H as [|c l [Hi He] HF]; subst.
    destruct (IH HF) as (rows & Hrows & HF2).
    rewrite Forall_forall in He.
    assert (L0 : length (nth i channel []) = 256%nat)
      by (apply He, nth_In; lia).
    assert (L1 : length (nth (S i) channel []) = 256%nat)
      by (apply He, nth_In; lia).
    destruct (feature_extraction_row (nth i channel [])
                (nth (S i) channel []) L0) as (row & Hrow & Lrow).
    { intros E. rewrite E in L1. discriminate. }
    exists (row :: rows). split.
    + cbn [channel_features]. unfold index.
      rewrite (nth_error_nth' channel []) by lia. cbn [bind].
      rewrite Nat.add_1_r, (nth_error_nth' channel []) by lia. cbn [bind].
      rewrite Hrow. cbn [bind]. rewrite Hrows. reflexivity.
    + constructor; [split; assumption|exact HF2].
Qed.

Lemma feature_rows_records (data : list (list (list R))) (labels : list bool) :
  forall i : nat,
  Forall (fun channel =>
            (i + length labels < length channel \/ labels = [])%nat /\
            Forall (fun e => length e = 256%nat) channel) data ->
  exists recs,
    feature_rows db4 lapack_inv data labels i = Ok recs /\
    length recs = length labels /\
    forall k, (k < length labels)%nat ->
      exists rows,
        nth_error recs k = Some (nth k labels false, rows) /\
        Forall2 (fun channel row =>
                   feature_extraction db4 lapack_inv (nth (i + k) channel [])
                     (nth (S (i + k)) channel []) = Ok [row] /\
                   length row = 10%nat) data rows.
Proof.
  induction labels as [|label labels IH]; intros i H.
  - exists []. split; [reflexivity|]. split; [reflexivity|].
    intros k Hk. cbn in Hk. lia.
  - destruct (channel_features_rows i data) as (rows & Hrows & HF2).
    { eapply Forall_impl; [|exact H]. cbn [length].
      intros channel [[Hc|Hc] He]; [|discriminate]. split; [lia|exact He]. }
    destruct (IH (S i)) as (recs & Hrecs & Lrecs & Hnth).
    { eapply Forall_impl; [|exact H]. cbn [length].
      intros channel [[Hc|Hc] He]; [|discriminate].
      split; [|exact He]. left. lia. }
    exists ((label, rows) :: recs). split; [|split].
    + cbn [feature_rows]. rewrite Hrows. cbn [bind]. rewrite Hrecs.
      reflexivity.
    + cbn [length]. rewrite Lrecs. reflexivity.
    + intros [|k] Hk.
      * exists rows. split; [reflexivity|].
        rewrite Nat.add_0_r. exact HF2.
      * cbn [length] in Hk. destruct (Hnth k ltac:(lia)) as (rows' & E & F).
        exists rows'. split; [exact E|].
        replace (i + S k)%nat with (S i + k)%nat by lia. exact F.
Qed.

End DriverProperties.

(** X10: when every channel holds at least as many epochs as there are
    labels but one, all of 256 samples, the loop of [main_features.py]
    raises nothing and builds one record for each label but the last two;
    record [i] starts with label [i] and then holds, for each channel in
    order, the row of ten values that [feature_extraction] returns on
    epochs [i] and [i + 1] of that channel. *)
Theorem feature_set_one_record_per_epoch_pair (db4 : Wavelet)
  (lapack_inv : nat -> (nat -> nat -> R) -> option (nat -> nat -> R))
  (data : list (list (list R))) (annotations : list bool) :
  dec_len db4 = 8%nat ->
  Forall (fun channel =>
            (length annotations - 1 <= length channel)%nat /\
            Forall (fun e => length e = 256%nat) channel) data ->
  exists recs,
    feature_set db4 lapack_inv data annotations = Ok recs /\
    length recs = (length annotations - 2)%nat /\
    forall i, (i < length annotations - 2)%nat ->
      exists rows,
        nth_error recs i = Some (nth i annotations false, rows) /\
        Forall2 (fun channel row =>
                   feature_extraction db4 lapack_inv (nth i channel [])
                     (nth (S i) channel []) = Ok [row] /\
                   length row = 10%nat) data rows.
Proof.
  intros Hlen H. unfold feature_set. rewrite py_slice_drop_last_two.
  destruct (feature_rows_records db4 lapack_inv Hlen data
              (firstn (length annotations - 2) annotations) 0)
    as (recs & Hrecs & Lrecs & Hnth).
  { eapply Forall_impl; [|exact H]. intros channel [Hc He].
    split; [|exact He]. rewrite length_firstn.
    destruct (length annotations - 2)%nat eqn:E; [right; reflexivity|].
    left. lia. }
  rewrite length_firstn in Lrecs, Hnth.
  exists recs. split; [exact Hrecs|]. split; [lia|].
  intros i Hi. destruct (Hnth i ltac:(lia)) as (rows & E & F).
  exists rows. split; [|exact F].
  rewrite E. do 2 f_equal. rewrite nth_firstn.
  destruct (Nat.ltb_spec i (length annotations - 2)); [reflexivity|lia].
Qed.

(** * Epochs of other lengths *)

Lemma wavedec_loop_length (w : Wavelet) (lv : nat) :
  forall (a : list R) (acc : list (list R)),
  length (wavedec_loop w lv a acc) = (S lv + length acc)%nat.
Proof.
  induction lv as [|lv IH]; intros a acc; [reflexivity|].
  cbn [wavedec_loop]. destruct (dwt w a) as [a' d].
  rewrite IH. cbn [length]. lia.
Qed.

Lemma length_tl {A : Type} (l : list A) : length (tl l) = (length l - 1)%nat.
Proof. destruct l; cbn; lia. Qed.

Section OtherLengths.

Variable db4 : Wavelet.
Variable lapack_inv : nat -> (nat -> nat -> R) -> option (nat -> nat -> R).
Hypothesis db4_len : dec_len db4 = 8%nat.

Lemma max_level_eight_taps (n : nat) :
  dwt_max_level n (dec_len db4)
  = Ok (if (n <? 7)%nat then 0%nat else Nat.log2 (n / 7)).
Proof.
  rewrite db4_len. unfold dwt_max_level.
  change (8 <? 2)%nat with false. change (8 - 1)%nat with 7%nat.
  destruct (n <? 7)%nat; reflexivity.
Qed.

Lemma level_of_long_epoch (n : nat) :
  (28 <= n)%nat ->
  dwt_max_level n (dec_len db4) = Ok (Nat.log2 (n / 7)) /\
  (2 <= Nat.log2 (n / 7))%nat.
Proof.
  intros H. rewrite max_level_eight_taps.
  destruct (Nat.ltb_spec n 7); [lia|]. split; [reflexivity|].
  apply Nat.le_trans with (Nat.log2 4); [cbn; lia|].
  apply Nat.log2_le_mono.
  apply Nat.div_le_lower_bound; lia.
Qed.

Lemma level_of_short_epoch (n : nat) :
  (n < 28)%nat ->
  exists lv, dwt_max_level n (dec_len db4) = Ok lv /\ (lv < 2)%nat.
Proof.
  intros H. rewrite max_level_eight_taps.
  destruct (Nat.ltb_spec n 7); [exists 0%nat; split; [reflexivity|lia]|].
  eexists. split; [reflexivity|].
  assert (Hq : (n / 7 < 4)%nat) by (apply Nat.Div0.div_lt_upper_bound; lia).
  destruct (n / 7)%nat as [|[|[|[|q]]]]; cbn; lia.
Qed.

End OtherLengths.

Lemma wavelets_count (db4 : Wavelet) (data : list R) (lv : nat) :
  dwt_max_level (length data) (dec_len db4) = Ok lv -> (2 <= lv)%nat ->
  exists w,
    extract_log_sum_wavelets db4 data = Ok w /\ length w = (lv - 1)%nat.
Proof.
  intros Hlv H2. unfold extract_log_sum_wavelets, wavedec.
  rewrite Hlv. cbn [bind]. unfold del.
  rewrite length_map, length_tl, wavedec_loop_length. cbn [length].
  destruct (Nat.ltb_spec 1 (S lv + 0 - 1)); [|lia].
  eexists. split; [reflexivity|].
  rewrite length_app, length_firstn, length_skipn, length_map, length_tl,
    wavedec_loop_length.
  cbn [length]. lia.
Qed.

Lemma wavelets_too_few (db4 : Wavelet) (data : list R) (lv : nat) :
  dwt_max_level (length data) (dec_len db4) = Ok lv -> (lv < 2)%nat ->
  extract_log_sum_wavelets db4 data = Raise IndexError.
Proof.
  intros Hlv H2. unfold extract_log_sum_wavelets, wavedec.
  rewrite Hlv. cbn [bind]. unfold del.
  rewrite length_map, length_tl, wavedec_loop_length. cbn [length].
  destruct (Nat.ltb_spec 1 (S lv + 0 - 1)); [lia|reflexivity].
Qed.

Lemma filtered_signals (data : list R) :
  data <> [] ->
  exists k1 k2 b1 b2,
    firwin 467 [1; 30] true 128 = Ok k1 /\
    firwin 467 [3; 12] true 128 = Ok k2 /\
    np_convolve data k1 = Ok b1 /\ np_convolve data k2 = Ok b2 /\
    b1 <> [] /\ length b1 = length b2.
Proof.
  intros Hd.
  destruct (firwin_two_edges 1 30) as (k1 & Hk1 & Lk1); try lra.
  destruct (firwin_two_edges 3 12) as (k2 & Hk2 & Lk2); try lra.
  assert (Nk1 : k1 <> []) by (eapply nonempty_of_length; exact Lk1).
  assert (Nk2 : k2 <> []) by (eapply nonempty_of_length; exact Lk2).
  exists k1, k2. eexists. eexists.
  split; [exact Hk1|]. split; [exact Hk2|].
  split; [apply np_convolve_ok; assumption|].
  split; [apply np_convolve_ok; assumption|].
  split; [|rewrite !length_map, !length_seq, Lk1, Lk2; reflexivity].
  intros E. apply (f_equal (@length R)) in E.
  rewrite length_map, length_seq, Lk1 in E.
  destruct data as [|x data]; [contradiction|].
  cbn [length] in E. lia.
Qed.

(** X11: on an empty current epoch [feature_extraction] raises
    [ValueError] (from the first [np.convolve]), whatever the next epoch
    is. *)
Theorem empty_epoch_raises_value_error (db4 : Wavelet)
  (lapack_inv : nat -> (nat -> nat -> R) -> option (nat -> nat -> R))
  (data1 : list R) :
  feature_extraction db4 lapack_inv [] data1 = Raise ValueError.
Proof.
  destruct (firwin_two_edges 1 30) as (k1 & Hk1 & _); try lra.
  unfold feature_extraction. rewrite Hk1. reflexivity.
Qed.

(** X12: on a non-empty current epoch of fewer than 28 samples the
    decomposition has fewer than two detail sets, [del wavelet_feat[1]]
    is out of range and [feature_extraction] raises [IndexError],
    whatever the next epoch is. *)
Theorem short_epoch_raises_index_error (db4 : Wavelet)
  (lapack_inv : nat -> (nat -> nat -> R) -> option (nat -> nat -> R))
  (data data1 : list R) :
  dec_len db4 = 8%nat -> data <> [] -> (length data < 28)%nat ->
  feature_extraction db4 lapack_inv data data1 = Raise IndexError.
Proof.
  intros Hlen Hd Hshort.
  destruct (filtered_signals data Hd)
    as (k1 & k2 & b1 & b2 & Hk1 & Hk2 & Hb1 & Hb2 & _).
  destruct (level_of_short_epoch db4 Hlen (length data) Hshort)
    as (lv & Hlv & Hlt).
  unfold feature_extraction.
  rewrite Hk1. cbn [bind]. rewrite Hb1. cbn [bind].
  rewrite Hk2. cbn [bind]. rewrite Hb2. cbn [bind].
  rewrite (wavelets_too_few db4 data lv Hlv Hlt). reflexivity.
Qed.

(** X13: on a current epoch of at least 28 samples and a non-empty next
    epoch [feature_extraction] returns one row, and the row has
    [floor(log2(len / 7)) + 5] values, [len] being the length of the
    current epoch: ten values only for 224 to 447 samples. *)
Theorem row_length_follows_epoch_length (db4 : Wavelet)
  (lapack_inv : nat -> (nat -> nat -> R) -> option (nat -> nat -> R))
  (data data1 : list R) :
  dec_len db4 = 8%nat -> (28 <= length data)%nat -> data1 <> [] ->
  exists row,
    feature_extraction db4 lapack_inv data data1 = Ok [row] /\
    length row = (Nat.log2 (length data / 7) + 5)%nat.
Proof.
  intros Hlen Hlong Hd1.
  assert (Hd : data <> []) by (intros ->; cbn in Hlong; lia).
  destruct (filtered_signals data Hd)
    as (k1 & k2 & b1 & b2 & Hk1 & Hk2 & Hb1 & Hb2 & Nb1 & Lb).
  assert (Nb2 : b2 <> []).
  { intros ->. destruct b1; [contradiction|discriminate]. }
  destruct (level_of_long_epoch db4 Hlen (length data) Hlong) as [Hlv H2].
  destruct (wavelets_count db4 data _ Hlv H2) as (w & Hw & Lw).
  destruct (np_correlate_head data data1 Hd Hd1) as (c1 & x1 & Hc1 & Hx1).
  destruct (np_correlate_head b1 b2 Nb1 Nb2) as (c2 & x2 & Hc2 & Hx2).
  destruct (extract_phase_ok data Hd) as (ph & Hph).
  destruct (extract_mahalanobis_ok lapack_inv b1 b2 Lb) as (d & Hdist).
  eexists. split.
  - unfold feature_extraction.
    rewrite Hk1. cbn [bind]. rewrite Hb1. cbn [bind].
    rewrite Hk2. cbn [bind]. rewrite Hb2. cbn [bind].
    rewrite Hw. cbn [bind].
    unfold extract_correlate. rewrite Hc1. cbn [bind]. rewrite Hx1.
    cbn [bind]. rewrite Hc2. cbn [bind]. rewrite Hx2. cbn [bind].
    rewrite Hph. cbn [bind]. rewrite Hdist. cbn [bind]. reflexivity.
  - rewrite length_app, Lw. cbn [length extract_power app]. lia.
Qed.

(** X14: with a current epoch of at least 28 samples and an empty next
    epoch [feature_extraction] raises [ValueError] (from the first
    [np.correlate]). *)
Theorem empty_next_epoch_raises_value_error (db4 : Wavelet)
  (lapack_inv : nat -> (nat -> nat -> R) -> option (nat -> nat -> R))
  (data : list R) :
  dec_len db4 = 8%nat -> (28 <= length data)%nat ->
  feature_extraction db4 lapack_inv data [] = Raise ValueError.
Proof.
  intros Hlen Hlong.
  assert (Hd : data <> []) by (intros ->; cbn in Hlong; lia).
  destruct (filtered_signals data Hd)
    as (k1 & k2 & b1 & b2 & Hk1 & Hk2 & Hb1 & Hb2 & _).
  destruct (level_of_long_epoch db4 Hlen (length data) Hlong) as [Hlv H2].
  destruct (wavelets_count db4 data _ Hlv H2) as (w & Hw & _).
  unfold feature_extraction.
  rewrite Hk1. cbn [bind]. rewrite Hb1. cbn [bind].
  rewrite Hk2. cbn [bind]. rewrite Hb2. cbn [bind].
  rewrite Hw. cbn [bind].
  unfold extract_correlate, np_correlate.
  destruct data as [|x data]; [contradiction|]. reflexivity.
Qed.

(** * The first correlation feature *)

Lemma corr_at_swap (a v : list R) :
  length a = length v -> corr_at a v 0 = corr_at v a 0.
Proof.
  intros H. unfold corr_at. rewrite H. apply sum_upto_ext.
  intros i _. cbn [Nat.add]. apply Rmult_comm.
Qed.

Section FirstCorrelation.

Variable db4 : Wavelet.
Variable lapack_inv : nat -> (nat -> nat -> R) -> option (nat -> nat -> R).
Hypothesis db4_len : dec_len db4 = 8%nat.

Lemma first_correlation_value (data data1 : list R) :
  length data = 256%nat -> length data1 = 256%nat ->
  exists row,
    feature_extraction db4 lapack_inv data data1 = Ok [row] /\
    nth_error row 6 = Some (np_pow (Fin (corr_at data data1 0)) (1 / 2)).
Proof.
  intros Hlen Hlen1.
  assert (Hd : data <> []) by (eapply nonempty_of_length; exact Hlen).
  assert (Hd1 : data1 <> []) by (eapply nonempty_of_length; exact Hlen1).
  destruct (feature_extraction_structure db4 lapack_inv db4_len data data1
              Hlen Hd1)
    as (k1 & k2 & b1 & b2 & w & x1 & x2 & ph & d & _ & _ & _ & _ & _ & _ &
        _ & Lw & (c1 & Hc1 & Hx1) & _ & _ & _ & Hfe).
  rewrite (np_correlate_same_length data data1 Hd) in Hc1
    by (rewrite Hlen, Hlen1; reflexivity).
  injection Hc1 as <-. cbn in Hx1. injection Hx1 as <-.
  destruct (length_four w Lw) as (w0 & w1 & w2 & w3 & ->).
  eexists. split; [exact Hfe|]. reflexivity.
Qed.

End FirstCorrelation.

(** X15: for two epochs of 256 samples output 6 is the square root of
    their inner product when that is not negative, and NaN when it is
    negative. *)
Theorem first_correlation_is_root_of_inner_product (db4 : Wavelet)
  (lapack_inv : nat -> (nat -> nat -> R) -> option (nat -> nat -> R))
  (data data1 : list R) :
  dec_len db4 = 8%nat ->
  length data = 256%nat -> length data1 = 256%nat ->
  let c := sum_upto 256 (fun i => nth i data 0 * nth i data1 0) in
  exists row,
    feature_extraction db4 lapack_inv data data1 = Ok [row] /\
    (0 <= c -> nth_error row 6 = Some (Fin (sqrt c))) /\
    (c < 0 -> nth_error row 6 = Some NaN).
Proof.
  intros Hlen Hd Hd1 c.
  destruct (first_correlation_value db4 lapack_inv Hlen data data1 Hd Hd1)
    as (row & Hfe & H6).
  assert (E : corr_at data data1 0 = c).
  { unfold corr_at, c. rewrite Hd1. reflexivity. }
  rewrite E in H6.
  exists row. split; [exact Hfe|]. split.
  - intros Hc. rewrite H6, np_pow_half_nonneg by exact Hc. reflexivity.
  - intros Hc. rewrite H6. unfold np_pow.
    destruct (Rlt_dec 0 c); [lra|].
    destruct (Req_dec_T c 0); [lra|reflexivity].
Qed.

(** X16: for two epochs of 256 samples output 6 is the same whichever
    of the two is the current epoch and whichever the next. *)
Theorem first_correlation_is_symmetric (db4 : Wavelet)
  (lapack_inv : nat -> (nat -> nat -> R) -> option (nat -> nat -> R))
  (data data1 : list R) :
  dec_len db4 = 8%nat ->
  length data = 256%nat -> length data1 = 256%nat ->
  exists row row' v,
    feature_extraction db4 lapack_inv data data1 = Ok [row] /\
    feature_extraction db4 lapack_inv data1 data = Ok [row'] /\
    nth_error row 6 = Some v /\ nth_error row' 6 = Some v.
Proof.
  intros Hlen Hd Hd1.
  destruct (first_correlation_value db4 lapack_inv Hlen data data1 Hd Hd1)
    as (row & Hfe & H6).
  destruct (first_correlation_value db4 lapack_inv Hlen data1 data Hd1 Hd)
    as (row' & Hfe' & H6').
  exists row, row'. eexists.
  split; [exact Hfe|]. split; [exact Hfe'|]. split; [exact H6|].
  rewrite H6'. rewrite (corr_at_swap data1 data); [reflexivity|].
  rewrite Hd, Hd1. reflexivity.
Qed.

(** * The bipolar montage: properties *)

Lemma list_index_first (x : string) (l : list string) :
  forall i : nat,
  nth_error l i = Some x -> ~ In x (firstn i l) -> list_index x l = Ok i.
Proof.
  induction l as [|y t IH]; intros i Hn Hf.
  - destruct i; discriminate.
  - destruct i as [|i].
    + cbn in Hn. injection Hn as ->. cbn [list_index].
      rewrite String.eqb_refl. reflexivity.
    + cbn [list_index]. destruct (String.eqb_spec y x) as [->|D].
      * exfalso. apply Hf. left. reflexivity.
      * rewrite (IH i); [reflexivity|exact Hn|].
        intros C. apply Hf. right. exact C.
Qed.

Lemma list_index_missing (x : string) (l : list string) :
  ~ In x l -> list_index x l = Raise ValueError.
Proof.
  induction l as [|y t IH]; intros H; [reflexivity|].
  cbn [list_index]. destruct (String.eqb_spec y x) as [->|D].
  - exfalso. apply H. left. reflexivity.
  - rewrite IH; [reflexivity|]. intros C. apply H. right. exact C.
Qed.

Lemma list_index_found (x : string) (l : list string) :
  In x l -> exists i, list_index x l = Ok i /\ (i < length l)%nat.
Proof.
  induction l as [|y t IH]; intros H; [contradiction|].
  cbn [list_index]. destruct (String.eqb_spec y x) as [->|D].
  - exists 0%nat. split; [reflexivity|cbn; lia].
  - destruct H as [H|H]; [contradiction|].
    destruct (IH H) as (i & E & L). exists (S i).
    rewrite E. split; [reflexivity|cbn; lia].
Qed.

Lemma rereference_pair_rows (data : list (list R)) (labels : list string)
  (a b : string) (i j : nat) (ra rb : list R) :
  list_index a labels = Ok i -> list_index b labels = Ok j ->
  nth_error data i = Some ra -> nth_error data j = Some rb ->
  length ra = length rb ->
  rereference_pair data labels (a, b)
  = Loaded (map (fun p => fst p - snd p) (combine ra rb),
            String.append a (String.append " - " b)).
Proof.
  intros Hi Hj Ha Hb L. unfold rereference_pair. cbn [fst snd].
  rewrite Hi. cbn [bind]. rewrite Hj. cbn [bind]. unfold index.
  rewrite Ha. cbn [bind]. rewrite Hb. cbn [bind].
  unfold np_sub. rewrite L, Nat.eqb_refl. reflexivity.
Qed.

Lemma rereference_pair_missing (data : list (list R)) (labels : list string)
  (a b : string) :
  ~ In a labels \/ In a labels /\ ~ In b labels ->
  rereference_pair data labels (a, b) = Failed KeyError.
Proof.
  intros [H|[Ha H]]; unfold rereference_pair; cbn [fst snd].
  - rewrite (list_index_missing a labels H). reflexivity.
  - destruct (list_index_found a labels Ha) as (i & E & _).
    rewrite E. cbn [bind]. rewrite (list_index_missing b labels H).
    reflexivity.
Qed.

Lemma rereference_pair_found (data : list (list R)) (labels : list string)
  (m : nat) (a b : string) :
  (length labels <= length data)%nat ->
  Forall (fun row => length row = m) data ->
  In a labels -> In b labels ->
  exists d l, rereference_pair data labels (a, b) = Loaded (d, l).
Proof.
  intros Hrows Hrect Ha Hb.
  destruct (list_index_found a labels Ha) as (i & Ei & Li).
  destruct (list_index_found b labels Hb) as (j & Ej & Lj).
  destruct (nth_error data i) as [ra|] eqn:Ra;
    [|apply nth_error_None in Ra; lia].
  destruct (nth_error data j) as [rb|] eqn:Rb;
    [|apply nth_error_None in Rb; lia].
  rewrite Forall_forall in Hrect.
  eexists. eexists.
  apply (rereference_pair_rows data labels a b i j ra rb Ei Ej Ra Rb).
  rewrite (Hrect ra (nth_error_In _ _ Ra)), (Hrect rb (nth_error_In _ _ Rb)).
  reflexivity.
Qed.

(** X18: when each of the four ear labels occurs in [channel_labels],
    with rows of equal length at the positions of their first
    occurrences, [bipolar_rereference] returns three channels, in this
    order: left top minus left behind, right top minus right behind, left
    behind minus right behind, each a sample-wise difference, with the
    labels ['LiOorTop - LiOorAchter'], ['ReOorTop - ReOorAchter'] and
    ['LiOorAchter - ReOorAchter']. *)
Theorem bipolar_rereference_differences (data : list (list R))
  (labels : list string) (lt la rt ra : nat)
  (top_l behind_l top_r behind_r : list R) :
  nth_error labels lt = Some "LiOorTop"%string ->
  ~ In "LiOorTop"%string (firstn lt labels) ->
  nth_error labels la = Some "LiOorAchter"%string ->
  ~ In "LiOorAchter"%string (firstn la labels) ->
  nth_error labels rt = Some "ReOorTop"%string ->
  ~ In "ReOorTop"%string (firstn rt labels) ->
  nth_error labels ra = Some "ReOorAchter"%string ->
  ~ In "ReOorAchter"%string (firstn ra labels) ->
  nth_error data lt = Some top_l -> nth_error data la = Some behind_l ->
  nth_error data rt = Some top_r -> nth_error data ra = Some behind_r ->
  length top_l = length behind_l -> length top_r = length behind_r ->
  length behind_l = length behind_r ->
  bipolar_rereference data labels
  = Loaded ([map (fun p => fst p - snd p) (combine top_l behind_l);
             map (fun p => fst p - snd p) (combine top_r behind_r);
             map (fun p => fst p - snd p) (combine behind_l behind_r)],
            ["LiOorTop - LiOorAchter"%string;
             "ReOorTop - ReOorAchter"%string;
             "LiOorAchter - ReOorAchter"%string]).
Proof.
  intros Hlt Flt Hla Fla Hrt Frt Hra Fra Dlt Dla Drt Dra L1 L2 L3.
  pose proof (list_index_first _ _ _ Hlt Flt) as Ilt.
  pose proof (list_index_first _ _ _ Hla Fla) as Ila.
  pose proof (list_index_first _ _ _ Hrt Frt) as Irt.
  pose proof (list_index_first _ _ _ Hra Fra) as Ira.
  unfold bipolar_rereference, bipolar_pairs. cbn [rereference_loop].
  rewrite (rereference_pair_rows data labels _ _ _ _ _ _ Ilt Ila Dlt Dla L1).
  rewrite (rereference_pair_rows data labels _ _ _ _ _ _ Irt Ira Drt Dra L2).
  rewrite (rereference_pair_rows data labels _ _ _ _ _ _ Ila Ira Dla Dra L3).
  reflexivity.
Qed.

(** X19: when the array has a row for every label and its rows have one
    length, [bipolar_rereference] raises [KeyError] as soon as one of the
    four ear labels does not occur in [channel_labels]. *)
Theorem bipolar_rereference_key_error (data : list (list R))
  (labels : list string) (m : nat) (x : string) :
  (length labels <= length data)%nat ->
  Forall (fun row => length row = m) data ->
  In x ["LiOorTop"%string; "LiOorAchter"%string; "ReOorTop"%string;
        "ReOorAchter"%string] ->
  ~ In x labels ->
  bipolar_rereference data labels = Failed KeyError.
Proof.
  intros Hrows Hrect Hx Hmiss.
  unfold bipolar_rereference, bipolar_pairs. cbn [rereference_loop].
  destruct (in_dec string_dec "LiOorTop"%string labels) as [I1|N1];
    [|rewrite rereference_pair_missing by (left; exact N1); reflexivity].
  destruct (in_dec string_dec "LiOorAchter"%string labels) as [I2|N2];
    [|rewrite rereference_pair_missing by (right; split; assumption);
      reflexivity].
  destruct (rereference_pair_found data labels m _ _ Hrows Hrect I1 I2)
    as (d1 & l1 & ->).
  destruct (in_dec string_dec "ReOorTop"%string labels) as [I3|N3];
    [|rewrite rereference_pair_missing by (left; exact N3); reflexivity].
  destruct (in_dec string_dec "ReOorAchter"%string labels) as [I4|N4];
    [|rewrite rereference_pair_missing by (right; split; assumption);
      reflexivity].
  exfalso. cbn [In] in Hx.
  destruct Hx as [<-|[<-|[<-|[<-|[]]]]]; contradiction.
Qed.

(** * The further theorems at concrete inputs *)

Lemma ramp_channel_small :
  Forall (fun channel => (Z.of_nat (length channel) < 2 ^ 46)%Z)
    [ramp_channel].
Proof. constructor; [reflexivity|constructor]. Defined.

Lemma split_data_whole_samples_witness :
  (128 == inject_Z (Z.of_nat 128))%Q /\ (2 == inject_Z (Z.of_nat 2))%Q /\
  (2 - 50 * 2 / 100 == inject_Z (Z.of_nat 1))%Q /\
  (0 < 128)%nat /\ (0 < 1)%nat /\ (Z.of_nat 1 < 2 ^ 46)%Z /\
  Forall (fun channel => (Z.of_nat (length channel) < 2 ^ 46)%Z)
    [ramp_channel] /\
  exists fuel epochs,
    split_data fuel [ramp_channel] 128 2 50 = Some epochs /\
    Forall2 (fun channel eps =>
      length eps = (if (length channel <? 2 * 128)%nat then 0
                    else (length channel - 2 * 128) / (1 * 128) + 1)%nat /\
      forall k, (k < length eps)%nat ->
        length (nth k eps []) = (2 * 128)%nat /\
        forall j, (j < 2 * 128)%nat ->
          nth_error (nth k eps []) j
          = nth_error channel (k * (1 * 128) + j))
      [ramp_channel] epochs.
Proof.
  split; [reflexivity|]. split; [reflexivity|]. split; [reflexivity|].
  split; [apply Nat.lt_0_succ|]. split; [apply Nat.lt_0_succ|].
  split; [reflexivity|]. split; [exact ramp_channel_small|].
  exact (split_data_whole_samples [ramp_channel] 128 2 50 128 2 1
           eq_refl eq_refl eq_refl (Nat.lt_0_succ 127) (Nat.lt_0_succ 0)
           eq_refl ramp_channel_small).
Defined.

Lemma split_data_tiles_without_overlap_witness :
  (0 < 128)%Q /\ (0 < 256)%nat /\
  (2 * 128 == inject_Z (Z.of_nat 256))%Q /\
  exists fuel epochs,
    split_data fuel [ramp_channel] 128 2 0 = Some epochs /\
    Forall2 (fun channel eps =>
      concat eps = firstn (length channel / 256 * 256) channel)
      [ramp_channel] epochs.
Proof.
  split; [reflexivity|]. split; [apply Nat.lt_0_succ|].
  split; [reflexivity|].
  exact (split_data_tiles_without_overlap [ramp_channel] 128 2 256
           eq_refl (Nat.lt_0_succ 255) eq_refl).
Defined.





Lemma one_event_in_range :
  Forall (fun event => exists s1 e1 rest1,
            event = s1 :: e1 :: rest1 /\
            (py_int (e1 * 128) <= py_int (s1 * 128) \/
             - Z.of_nat 1024 <= py_int (s1 * 128) /\
             py_int (e1 * 128) <= Z.of_nat 1024)%Z) one_event.
Proof.
  constructor; [|constructor]. exists 1%Q, 3%Q, [].
  split; [reflexivity|]. right.
  split; intros C; vm_compute in C; discriminate C.
Defined.



Lemma three_epochs_fit :
  Forall (fun channel =>
            (length [true; false; false] - 1 <= length channel)%nat /\
            Forall (fun e => length e = 256%nat) channel) [three_epochs].
Proof.
  constructor; [|constructor]. split; [cbn; lia|].
  repeat constructor.
Defined.

Lemma feature_set_one_record_per_epoch_pair_witness :
  dec_len db4_rounded = 8%nat /\
  Forall (fun channel =>
            (length [true; false; false] - 1 <= length channel)%nat /\
            Forall (fun e => length e = 256%nat) channel) [three_epochs] /\
  exists recs,
    feature_set db4_rounded inv_singular [three_epochs] [true; false; false]
    = Ok recs /\
    length recs = 1%nat.
Proof.
  split; [exact db4_rounded_len|]. split; [exact three_epochs_fit|].
  destruct (feature_set_one_record_per_epoch_pair db4_rounded inv_singular
              [three_epochs] [true; false; false] db4_rounded_len
              three_epochs_fit) as (recs & Hrecs & Lrecs & _).
  exists recs. split; [exact Hrecs|exact Lrecs].
Defined.

Lemma four_samples_nonempty : four_samples <> [].
Proof. discriminate. Qed.

Lemma short_epoch_raises_index_error_witness :
  dec_len db4_rounded = 8%nat /\ four_samples <> [] /\
  (length four_samples < 28)%nat /\
  feature_extraction db4_rounded inv_singular four_samples ramp_epoch
  = Raise IndexError.
Proof.
  assert (H : (length four_samples < 28)%nat) by (cbn; lia).
  split; [exact db4_rounded_len|]. split; [exact four_samples_nonempty|].
  split; [exact H|].
  exact (short_epoch_raises_index_error db4_rounded inv_singular
           four_samples ramp_epoch db4_rounded_len four_samples_nonempty H).
Defined.

Lemma long_epoch_length : length long_epoch = 512%nat.
Proof. reflexivity. Qed.

Lemma row_length_follows_epoch_length_witness :
  dec_len db4_rounded = 8%nat /\ (28 <= length long_epoch)%nat /\
  ramp_epoch <> [] /\
  exists row,
    feature_extraction db4_rounded inv_singular long_epoch ramp_epoch
    = Ok [row] /\
    length row = 11%nat.
Proof.
  assert (H : (28 <= length long_epoch)%nat)
    by (rewrite long_epoch_length; lia).
  split; [exact db4_rounded_len|]. split; [exact H|].
  split; [exact ramp_epoch_nonempty|].
  destruct (row_length_follows_epoch_length db4_rounded inv_singular
              long_epoch ramp_epoch db4_rounded_len H ramp_epoch_nonempty)
    as (row & Hrow & Lrow).
  exists row. split; [exact Hrow|].
  rewrite Lrow, long_epoch_length. reflexivity.
Defined.

Lemma empty_next_epoch_raises_value_error_witness :
  dec_len db4_rounded = 8%nat /\ (28 <= length ramp_epoch)%nat /\
  feature_extraction db4_rounded inv_singular ramp_epoch [] = Raise ValueError.
Proof.
  assert (H : (28 <= length ramp_epoch)%nat)
    by (rewrite ramp_epoch_length; lia).
  split; [exact db4_rounded_len|]. split; [exact H|].
  exact (empty_next_epoch_raises_value_error db4_rounded inv_singular
           ramp_epoch db4_rounded_len H).
Defined.

Lemma squared_ramp_length : length (np_square ramp_epoch) = 256%nat.
Proof. reflexivity. Qed.

Lemma first_correlation_is_root_of_inner_product_witness :
  dec_len db4_rounded = 8%nat /\ length ramp_epoch = 256%nat /\
  length (np_square ramp_epoch) = 256%nat /\
  exists row,
    feature_extraction db4_rounded inv_singular ramp_epoch
      (np_square ramp_epoch) = Ok [row] /\
    (0 <= sum_upto 256 (fun i => nth i ramp_epoch 0
                                 * nth i (np_square ramp_epoch) 0) ->
     nth_error row 6
     = Some (Fin (sqrt (sum_upto 256
                          (fun i => nth i ramp_epoch 0
                                    * nth i (np_square ramp_epoch) 0))))) /\
    (sum_upto 256 (fun i => nth i ramp_epoch 0
                            * nth i (np_square ramp_epoch) 0) < 0 ->
     nth_error row 6 = Some NaN).
Proof.
  split; [exact db4_rounded_len|]. split; [exact ramp_epoch_length|].
  split; [exact squared_ramp_length|].
  exact (first_correlation_is_root_of_inner_product db4_rounded inv_singular
           ramp_epoch (np_square ramp_epoch) db4_rounded_len
           ramp_epoch_length squared_ramp_length).
Defined.

Lemma first_correlation_is_symmetric_witness :
  dec_len db4_rounded = 8%nat /\ length ramp_epoch = 256%nat /\
  length (np_square ramp_epoch) = 256%nat /\
  exists row row' v,
    feature_extraction db4_rounded inv_singular ramp_epoch
      (np_square ramp_epoch) = Ok [row] /\
    feature_extraction db4_rounded inv_singular (np_square ramp_epoch)
      ramp_epoch = Ok [row'] /\
    nth_error row 6 = Some v /\ nth_error row' 6 = Some v.
Proof.
  split; [exact db4_rounded_len|]. split; [exact ramp_epoch_length|].
  split; [exact squared_ramp_length|].
  exact (first_correlation_is_symmetric db4_rounded inv_singular
           ramp_epoch (np_square ramp_epoch) db4_rounded_len
           ramp_epoch_length squared_ramp_length).
Defined.

Lemma bipolar_rereference_differences_witness :
  bipolar_rereference four_rows channels
  = Loaded ([map (fun p => fst p - snd p) (combine [1; 2] [3; 5]);
             map (fun p => fst p - snd p) (combine [0; 1] [2; 2]);
             map (fun p => fst p - snd p) (combine [3; 5] [2; 2])],
            ["LiOorTop - LiOorAchter"%string;
             "ReOorTop - ReOorAchter"%string;
             "LiOorAchter - ReOorAchter"%string]).
Proof.
  apply (bipolar_rereference_differences four_rows channels 0 1 2 3
           [1; 2] [3; 5] [0; 1] [2; 2]);
    try reflexivity; cbn [firstn channels In]; intuition discriminate.
Defined.

Lemma bipolar_rereference_key_error_witness :
  (length three_labels <= length three_rows)%nat /\
  Forall (fun row => length row = 2%nat) three_rows /\
  In "ReOorAchter"%string channels /\
  ~ In "ReOorAchter"%string three_labels /\
  bipolar_rereference three_rows three_labels = Failed KeyError.
Proof.
  assert (H1 : (length three_labels <= length three_rows)%nat)
    by (cbn; lia).
  assert (H2 : Forall (fun row => length row = 2%nat) three_rows)
    by (repeat constructor).
  assert (H3 : In "ReOorAchter"%string channels)
    by (right; right; right; left; reflexivity).
  assert (H4 : ~ In "ReOorAchter"%string three_labels)
    by (cbn [In three_labels]; intuition discriminate).
  split; [exact H1|]. split; [exact H2|]. split; [exact H3|].
  split; [exact H4|].
  exact (bipolar_rereference_key_error three_rows three_labels 2
           "ReOorAchter" H1 H2 H3 H4).
Defined.

(** * Seizure events: properties *)

Lemma filter_app_split {A : Type} (f : A -> bool) (l : list A) :
  forall a b : list A,
  filter f l = a ++ b ->
  exists l1 l2, l = l1 ++ l2 /\ filter f l1 = a /\ filter f l2 = b.
Proof.
  induction l as [|x l IH]; intros a b H.
  - cbn in H. symmetry in H. apply app_eq_nil in H. destruct H as [-> ->].
    exists [], []. repeat split.
  - cbn [filter] in H. destruct (f x) eqn:Fx.
    + destruct a as [|y a].
      * exists [], (x :: l). cbn [app] in *. repeat split.
        cbn [filter]. rewrite Fx. exact H.
      * cbn [app] in H. injection H as <- H.
        destruct (IH a b H) as (l1 & l2 & -> & H1 & H2).
        exists (x :: l1), l2. repeat split; [|exact H2].
        cbn [filter]. rewrite Fx, H1. reflexivity.
    + destruct (IH a b H) as (l1 & l2 & -> & H1 & H2).
      exists (x :: l1), l2. repeat split; [|exact H2].
      cbn [filter]. rewrite Fx. exact H1.
Qed.

Lemma last_cons_default {A : Type} (a d : A) (l : list A) :
  last (a :: l) d = last l a.
Proof.
  revert a d. induction l as [|x l IH]; intros a d; [reflexivity|].
  change (last (a :: x :: l) d) with (last (x :: l) d).
  rewrite IH. symmetry. apply IH.
Qed.

Section Events.

Variable re_match : string -> string -> bool.
Variable interictal : bool.

Lemma index_middle (pre post : list Q) (t : Q) :
  index (pre ++ t :: post) (length pre) = Ok t.
Proof.
  unfold index. rewrite nth_error_app2 by lia. rewrite Nat.sub_diag.
  reflexivity.
Qed.

Lemma loop_app (onsets : list Q) (texts1 texts2 : list string) :
  forall (i : nat) (events : list (list Q)),
  annotations_loop re_match interictal onsets (texts1 ++ texts2) i events
  = (events' <- annotations_loop re_match interictal onsets texts1 i events ;;
     annotations_loop re_match interictal onsets texts2 (i + length texts1)
       events').
Proof.
  induction texts1 as [|text texts1 IH]; intros i events.
  - cbn [app annotations_loop bind length]. rewrite Nat.add_0_r.
    reflexivity.
  - cbn [app annotations_loop length].
    replace (i + S (length texts1))%nat with (S i + length texts1)%nat
      by lia.
    destruct (is_begin re_match interictal text).
    + destruct (index onsets i); cbn [bind]; [apply IH|reflexivity].
    + destruct (is_end re_match interictal text); [|apply IH].
      destruct events as [|ev events]; [reflexivity|].
      destruct (index onsets i); cbn [bind]; [apply IH|reflexivity].
Qed.

Lemma loop_raise (onsets : list Q) (texts : list string) :
  forall (i : nat) (events : list (list Q)) (x : exn),
  annotations_loop re_match interictal onsets texts i events = Raise x ->
  x = IndexError.
Proof.
  induction texts as [|text texts IH]; intros i events x H;
    [discriminate|].
  cbn [annotations_loop] in H.
  destruct (is_begin re_match interictal text).
  - unfold index in H. destruct (nth_error onsets i); cbn [bind] in H;
      [exact (IH _ _ _ H)|congruence].
  - destruct (is_end re_match interictal text); [|exact (IH _ _ _ H)].
    destruct events as [|ev events]; [congruence|].
    unfold index in H. destruct (nth_error onsets i); cbn [bind] in H;
      [exact (IH _ _ _ H)|congruence].
Qed.

Lemma events_length_raise (events : list (list Q)) (x : exn) :
  events_length events = Raise x -> x = IndexError.
Proof.
  induction events as [|ev events IH]; intros H; [discriminate|].
  cbn [events_length] in H. unfold event_length, index in H.
  destruct (nth_error ev 1); cbn [bind] in H; [|congruence].
  destruct (nth_error ev 0); cbn [bind] in H; [|congruence].
  destruct (events_length events); cbn [bind] in H; [discriminate|].
  apply IH. congruence.
Qed.

Lemma events_length_unfinished (events : list (list Q)) (t : Q) :
  events_length (events ++ [[t]]) = Raise IndexError.
Proof.
  induction events as [|ev events IH].
  - reflexivity.
  - cbn [app events_length]. rewrite IH.
    destruct (event_length ev) as [d|x] eqn:E; cbn [bind]; [reflexivity|].
    f_equal. unfold event_length, index in E.
    destruct (nth_error ev 1); cbn [bind] in E; [|congruence].
    destruct (nth_error ev 0); cbn [bind] in E; congruence.
Qed.

Lemma events_length_complete (events : list (list Q)) :
  Forall (fun ev => (2 <= length ev)%nat) events ->
  exists ds, events_length events = Ok ds.
Proof.
  induction 1 as [|ev events Hev _ (ds & IH)].
  - exists []. reflexivity.
  - destruct ev as [|e0 [|e1 ev]]; cbn in Hev; try lia.
    cbn [events_length]. unfold event_length, index. cbn [nth_error bind].
    rewrite IH. cbn [bind]. eexists. reflexivity.
Qed.

(** Texts that are no markers leave the events as they are. *)
Lemma loop_no_marker (onsets : list Q) (texts : list string) :
  Forall (fun text => is_begin re_match interictal text = false /\
                      is_end re_match interictal text = false) texts ->
  forall (i : nat) (events : list (list Q)),
  annotations_loop re_match interictal onsets texts i events = Ok events.
Proof.
  induction 1 as [|text texts [Hb He] _ IH]; intros i events;
    [reflexivity|].
  cbn [annotations_loop]. rewrite Hb, He. apply IH.
Qed.

Lemma popped_open (events : list (list Q)) (t : Q) :
  (if (0 <? length (events ++ [[t]]))%nat
      && negb (length (last (events ++ [[t]]) []) =? 2)%nat
   then removelast (events ++ [[t]]) else events ++ [[t]])
  = events.
Proof.
  rewrite last_last, removelast_last, length_app. cbn [length].
  destruct (Nat.ltb_spec 0 (length events + 1)); [reflexivity|lia].
Qed.

Lemma popped_closed (events : list (list Q)) (a b : Q) :
  (if (0 <? length (events ++ [[a; b]]))%nat
      && negb (length (last (events ++ [[a; b]]) []) =? 2)%nat
   then removelast (events ++ [[a; b]]) else events ++ [[a; b]])
  = events ++ [[a; b]].
Proof.
  rewrite last_last. cbn [length Nat.eqb negb]. rewrite andb_false_r.
  reflexivity.
Qed.

Lemma group_markers_nonempty
  (g : list (Q * string) * (Q * string) * (Q * string))
  (groups : list (list (Q * string) * (Q * string) * (Q * string))) :
  flat_map (fun '(bs, b, e) => bs ++ [b; e]) (g :: groups) <> [].
Proof.
  destruct g as [[bs b] e]. cbn [flat_map]. intros H.
  apply app_eq_nil in H. destruct H as [H _].
  apply app_eq_nil in H. destruct H as [_ H]. discriminate.
Qed.

(** The loop on a sequence of marker groups (begin markers, the last of
    which opens the event, and one end marker), started between two
    groups and started inside one. *)
Lemma loop_groups (marks : list (Q * string)) :
  (forall (pre post : list Q) (events : list (list Q))
     (groups : list (list (Q * string) * (Q * string) * (Q * string))),
     filter (fun m => is_begin re_match interictal (snd m)
                      || is_end re_match interictal (snd m)) marks
     = flat_map (fun '(bs, b, e) => bs ++ [b; e]) groups ->
     Forall (fun '(bs, b, e) =>
               Forall (fun m => is_begin re_match interictal (snd m) = true)
                 (b :: bs) /\
               is_begin re_match interictal (snd e) = false /\
               is_end re_match interictal (snd e) = true) groups ->
     annotations_loop re_match interictal (pre ++ map fst marks ++ post)
       (map snd marks) (length pre) events
     = Ok ((match groups with
            | [] => events
            | _ => if (0 <? length events)%nat
                      && negb (length (last events []) =? 2)%nat
                   then removelast events else events
            end) ++ map (fun '(bs, b, e) => [fst b; fst e]) groups)) /\
  (forall (pre post : list Q) (events : list (list Q)) (t : Q)
     (bs : list (Q * string)) (e : Q * string)
     (groups : list (list (Q * string) * (Q * string) * (Q * string))),
     Forall (fun m => is_begin re_match interictal (snd m) = true) bs ->
     is_begin re_match interictal (snd e) = false ->
     is_end re_match interictal (snd e) = true ->
     Forall (fun '(bs, b, e) =>
               Forall (fun m => is_begin re_match interictal (snd m) = true)
                 (b :: bs) /\
               is_begin re_match interictal (snd e) = false /\
               is_end re_match interictal (snd e) = true) groups ->
     filter (fun m => is_begin re_match interictal (snd m)
                      || is_end re_match interictal (snd m)) marks
     = bs ++ e :: flat_map (fun '(bs, b, e) => bs ++ [b; e]) groups ->
     annotations_loop re_match interictal (pre ++ map fst marks ++ post)
       (map snd marks) (length pre) (events ++ [[t]])
     = Ok (events ++ [last (map fst bs) t; fst e]
                     :: map (fun '(bs, b, e) => [fst b; fst e]) groups)).
Proof.
  induction marks as [|m marks [IHc IHo]].
  - split.
    + intros pre post events groups Hf _. cbn [filter] in Hf.
      destruct groups as [|g groups].
      * cbn. rewrite app_nil_r. reflexivity.
      * symmetry in Hf. exfalso.
        exact (group_markers_nonempty g groups Hf).
    + intros pre post events t bs e groups _ _ _ _ Hf. cbn [filter] in Hf.
      destruct bs; discriminate.
  - assert (Hshift : forall pre post,
             pre ++ map fst (m :: marks) ++ post
             = (pre ++ [fst m]) ++ map fst marks ++ post).
    { intros pre post. cbn [map app]. rewrite <- app_assoc. reflexivity. }
    assert (Hlen : forall pre : list Q,
             S (length pre) = length (pre ++ [fst m])).
    { intros pre. rewrite length_app. cbn [length]. lia. }
    assert (Hidx : forall pre post,
             index (pre ++ map fst (m :: marks) ++ post) (length pre)
             = Ok (fst m)).
    { intros pre post. cbn [map app]. apply index_middle. }
    split.
    + intros pre post events groups Hf Hok.
      cbn [map annotations_loop filter] in *.
      destruct (is_begin re_match interictal (snd m)) eqn:Bm.
      * cbn [orb] in Hf. rewrite Hidx. cbn [bind].
        destruct groups as [|[[bs b] e] groups]; [discriminate|].
        inversion Hok as [|g gs Hg Hok']; subst.
        cbn beta iota in Hg. destruct Hg as (Hb & Hbe & Hee).
        rewrite Hshift, Hlen.
        cbn [flat_map] in Hf. destruct bs as [|b0 bs].
        -- cbn [app] in Hf. injection Hf as <- Hf.
           rewrite (IHo _ post _ (fst m) [] e groups);
             [reflexivity|constructor|exact Hbe|exact Hee|exact Hok'|].
           exact Hf.
        -- cbn [app] in Hf. injection Hf as <- Hf.
           inversion Hb as [|x l Hb1 Hb2]; subst.
           inversion Hb2 as [|x l Hb3 Hb4]; subst.
           rewrite (IHo _ post _ (fst m) (bs ++ [b]) e groups);
             [|apply Forall_app; split; [exact Hb4|constructor;
                 [exact Hb1|constructor]]
              |exact Hbe|exact Hee|exact Hok'|].
           ++ rewrite map_app. cbn [map]. rewrite last_last. reflexivity.
           ++ rewrite Hf, <- !app_assoc. reflexivity.
      * destruct (is_end re_match interictal (snd m)) eqn:Em.
        -- cbn [orb] in Hf. exfalso.
           destruct groups as [|[[bs b] e] groups]; [discriminate|].
           inversion Hok as [|g gs Hg _]; subst.
           cbn beta iota in Hg. destruct Hg as (Hb & _).
           cbn [flat_map] in Hf. destruct bs as [|b0 bs].
           ++ cbn [app] in Hf. injection Hf as <- _.
              inversion Hb; subst. congruence.
           ++ cbn [app] in Hf. injection Hf as <- _.
              inversion Hb as [|x l _ Hb2]; subst.
              inversion Hb2; subst. congruence.
        -- cbn [orb] in Hf. rewrite Hshift, Hlen.
           apply IHc; assumption.
    + intros pre post events t bs e groups Hbs Hbe Hee Hok Hf.
      cbn [map annotations_loop filter] in *.
      destruct (is_begin re_match interictal (snd m)) eqn:Bm.
      * cbn [orb] in Hf. rewrite Hidx. cbn [bind].
        rewrite popped_open, Hshift, Hlen.
        destruct bs as [|b0 bs].
        -- cbn [app] in Hf. injection Hf as <- _. congruence.
        -- cbn [app] in Hf. injection Hf as <- Hf.
           inversion Hbs as [|x l _ Hbs']; subst.
           rewrite (IHo _ post _ (fst m) bs e groups); try assumption.
           cbn [map]. rewrite last_cons_default. reflexivity.
      * destruct (is_end re_match interictal (snd m)) eqn:Em.
        -- cbn [orb] in Hf.
           destruct bs as [|b0 bs].
           ++ cbn [app] in Hf. injection Hf as <- Hf.
              destruct (events ++ [[t]]) as [|ev0 evs] eqn:Eev.
              { apply app_eq_nil in Eev. destruct Eev; discriminate. }
              rewrite <- Eev. rewrite Hidx. cbn [bind].
              rewrite removelast_last, last_last, Hshift, Hlen.
              rewrite (IHc _ post _ groups Hf Hok).
              cbn [app map last]. f_equal.
              destruct groups as [|g groups].
              ** cbn [map]. rewrite app_nil_r. reflexivity.
              ** rewrite popped_closed, <- app_assoc. reflexivity.
           ++ cbn [app] in Hf. injection Hf as <- _.
              inversion Hbs; subst. congruence.
        -- cbn [orb] in Hf. rewrite Hshift, Hlen.
           apply IHo; assumption.
Qed.

Lemma filter_no_marker (marks : list (Q * string)) :
  filter (fun m => is_begin re_match interictal (snd m)
                   || is_end re_match interictal (snd m)) marks = [] ->
  Forall (fun text => is_begin re_match interictal text = false /\
                      is_end re_match interictal text = false)
    (map snd marks).
Proof.
  induction marks as [|m marks IH]; intros H; [constructor|].
  cbn [filter] in H.
  destruct (is_begin re_match interictal (snd m)
            || is_end re_match interictal (snd m)) eqn:E; [discriminate|].
  apply orb_false_iff in E. cbn [map]. constructor; [exact E|exact (IH H)].
Qed.

Lemma loop_lone_end (marks : list (Q * string)) :
  forall (pre post : list Q) (events : list (list Q)) (ev : list Q)
    (e : Q * string),
  filter (fun m => is_begin re_match interictal (snd m)
                   || is_end re_match interictal (snd m)) marks = [e] ->
  is_begin re_match interictal (snd e) = false ->
  is_end re_match interictal (snd e) = true ->
  annotations_loop re_match interictal (pre ++ map fst marks ++ post)
    (map snd marks) (length pre) (events ++ [ev])
  = Ok (events ++ [ev ++ [fst e]]).
Proof.
  induction marks as [|m marks IH]; intros pre post events ev e Hf Hb He;
    [discriminate|].
  assert (Hshift : pre ++ map fst (m :: marks) ++ post
                   = (pre ++ [fst m]) ++ map fst marks ++ post).
  { cbn [map app]. rewrite <- app_assoc. reflexivity. }
  assert (Hlen : S (length pre) = length (pre ++ [fst m])).
  { rewrite length_app. cbn [length]. lia. }
  cbn [filter] in Hf. cbn [map annotations_loop] in *.
  destruct (is_begin re_match interictal (snd m)
            || is_end re_match interictal (snd m)) eqn:E.
  - injection Hf as -> Hf. rewrite Hb, He.
    destruct (events ++ [ev]) as [|ev0 evs] eqn:Eev.
    { apply app_eq_nil in Eev. destruct Eev; discriminate. }
    rewrite <- Eev. cbn [map app]. rewrite index_middle. cbn [bind].
    rewrite removelast_last, last_last.
    apply loop_no_marker. apply filter_no_marker. exact Hf.
  - apply orb_false_iff in E. destruct E as [-> ->].
    rewrite Hshift, Hlen. apply IH; assumption.
Qed.

End Events.

(** X20: when the first marker among the annotation texts is an end
    marker, [events[-1]] is taken from the empty list and
    [load_annotations] raises [IndexError]. *)
Theorem end_marker_before_any_begin_raises
  (re_match : string -> string -> bool) (interictal : bool)
  (onsets durations : list Q) (pre post : list string) (text : string) :
  Forall (fun t => is_begin re_match interictal t = false /\
                   is_end re_match interictal t = false) pre ->
  is_begin re_match interictal text = false ->
  is_end re_match interictal text = true ->
  load_annotations re_match (onsets, durations, pre ++ text :: post)
    interictal
  = Raise IndexError.
Proof.
  intros Hpre Hb He. unfold load_annotations.
  rewrite loop_app, (loop_no_marker _ _ _ _ Hpre). cbn [bind].
  cbn [annotations_loop]. rewrite Hb, He. reflexivity.
Qed.

(** X21: when no marker follows the last begin marker, its event has no
    end, [event[1]] is out of range in the loop over the durations and
    [load_annotations] raises [IndexError] in place of returning the
    events. *)
Theorem unfinished_event_raises
  (re_match : string -> string -> bool) (interictal : bool)
  (onsets durations : list Q) (pre post : list string) (text : string) :
  is_begin re_match interictal text = true ->
  Forall (fun t => is_begin re_match interictal t = false /\
                   is_end re_match interictal t = false) post ->
  load_annotations re_match (onsets, durations, pre ++ text :: post)
    interictal
  = Raise IndexError.
Proof.
  intros Hb Hpost. unfold load_annotations. rewrite loop_app.
  destruct (annotations_loop re_match interictal onsets pre 0 [])
    as [events0|x] eqn:E0; cbn [bind].
  - cbn [annotations_loop]. rewrite Hb. unfold index.
    destruct (nth_error onsets (0 + length pre)) as [t|]; cbn [bind];
      [|reflexivity].
    rewrite (loop_no_marker _ _ _ _ Hpost). cbn [bind].
    rewrite events_length_unfinished. reflexivity.
  - f_equal. exact (loop_raise _ _ _ _ _ _ _ E0).
Qed.

(** X22: texts that match no marker pattern are skipped; when the
    markers come in groups of one or more begin markers followed by one
    end marker, [load_annotations] returns one event per group, in order:
    the onset of the group's last begin marker and the onset of its end
    marker. *)
Theorem paired_markers_give_events
  (re_match : string -> string -> bool) (interictal : bool)
  (marks : list (Q * string)) (durations : list Q)
  (groups : list (list (Q * string) * (Q * string) * (Q * string))) :
  filter (fun m => is_begin re_match interictal (snd m)
                   || is_end re_match interictal (snd m)) marks
  = flat_map (fun '(bs, b, e) => bs ++ [b; e]) groups ->
  Forall (fun '(bs, b, e) =>
            Forall (fun m => is_begin re_match interictal (snd m) = true)
              (b :: bs) /\
            is_begin re_match interictal (snd e) = false /\
            is_end re_match interictal (snd e) = true) groups ->
  load_annotations re_match (map fst marks, durations, map snd marks)
    interictal
  = Ok (map (fun '(bs, b, e) => [fst b; fst e]) groups).
Proof.
  intros Hf Hok. unfold load_annotations.
  assert (Hrun : annotations_loop re_match interictal (map fst marks)
                   (map snd marks) 0 []
                 = Ok (map (fun '(bs, b, e) => [fst b; fst e]) groups)).
  { pose proof (proj1 (loop_groups re_match interictal marks) [] [] []
                  groups Hf Hok) as H.
    cbn [app length] in H. rewrite app_nil_r in H. rewrite H.
    destruct groups; reflexivity. }
  rewrite Hrun. cbn [bind].
  destruct (events_length_complete
              (map (fun '(bs, b, e) => [fst b; fst e]) groups)) as [ds Hds].
  { apply Forall_forall. intros ev Hev. apply in_map_iff in Hev.
    destruct Hev as ([[bs b] e] & <- & _). cbn. lia. }
  rewrite Hds. reflexivity.
Qed.

(** X23: when an event is closed by two end markers in a row it gets
    three entries.  It is returned with its three entries when it is the
    last event, and it is discarded ([events.pop()]) as soon as another
    event begins: the events before and after it are returned, it is
    not. *)
Theorem second_end_marker_drops_event
  (re_match : string -> string -> bool) (interictal : bool)
  (marks : list (Q * string)) (durations : list Q)
  (groups1 groups2 : list (list (Q * string) * (Q * string) * (Q * string)))
  (b e e2 : Q * string) :
  filter (fun m => is_begin re_match interictal (snd m)
                   || is_end re_match interictal (snd m)) marks
  = flat_map (fun '(bs, b, e) => bs ++ [b; e]) groups1
    ++ b :: e :: e2 :: flat_map (fun '(bs, b, e) => bs ++ [b; e]) groups2 ->
  Forall (fun '(bs, b, e) =>
            Forall (fun m => is_begin re_match interictal (snd m) = true)
              (b :: bs) /\
            is_begin re_match interictal (snd e) = false /\
            is_end re_match interictal (snd e) = true) groups1 ->
  Forall (fun '(bs, b, e) =>
            Forall (fun m => is_begin re_match interictal (snd m) = true)
              (b :: bs) /\
            is_begin re_match interictal (snd e) = false /\
            is_end re_match interictal (snd e) = true) groups2 ->
  is_begin re_match interictal (snd b) = true ->
  is_begin re_match interictal (snd e) = false ->
  is_end re_match interictal (snd e) = true ->
  is_begin re_match interictal (snd e2) = false ->
  is_end re_match interictal (snd e2) = true ->
  load_annotations re_match (map fst marks, durations, map snd marks)
    interictal
  = Ok (map (fun '(bs, b, e) => [fst b; fst e]) groups1
        ++ (match groups2 with
            | [] => [[fst b; fst e; fst e2]]
            | _ => []
            end)
        ++ map (fun '(bs, b, e) => [fst b; fst e]) groups2).
Proof.
  intros Hf Hok1 Hok2 Hb Hbe Hee Hbe2 Hee2.
  assert (Hf' : filter (fun m => is_begin re_match interictal (snd m)
                          || is_end re_match interictal (snd m)) marks
                = flat_map (fun '(bs, b, e) => bs ++ [b; e])
                    (groups1 ++ [([], b, e)])
                  ++ ([e2] ++ flat_map (fun '(bs, b, e) => bs ++ [b; e])
                                groups2)).
  { rewrite Hf, flat_map_app. cbn [flat_map app].
    rewrite <- app_assoc. reflexivity. }
  destruct (filter_app_split _ _ _ _ Hf') as (m1 & m2 & -> & F1 & F2).
  destruct (filter_app_split _ _ _ _ F2) as (m2a & m2b & -> & F2a & F2b).
  assert (Hok1' : Forall (fun '(bs, b, e) =>
            Forall (fun m => is_begin re_match interictal (snd m) = true)
              (b :: bs) /\
            is_begin re_match interictal (snd e) = false /\
            is_end re_match interictal (snd e) = true)
            (groups1 ++ [([], b, e)])).
  { apply Forall_app. split; [exact Hok1|].
    constructor; [|constructor].
    split; [constructor; [exact Hb|constructor]|split; assumption]. }
  set (E1 := map (fun '(bs, b, e) => [fst b; fst e]) groups1).
  unfold load_annotations. rewrite !map_app.
  set (onsets := map fst m1 ++ map fst m2a ++ map fst m2b).
  (* the groups before the event *)
  assert (H1 : annotations_loop re_match interictal onsets (map snd m1) 0 []
               = Ok (E1 ++ [[fst b; fst e]])).
  { pose proof (proj1 (loop_groups re_match interictal m1) []
                  (map fst m2a ++ map fst m2b) [] _ F1 Hok1') as H.
    cbn [app length] in H. unfold onsets. rewrite H, map_app.
    f_equal. destruct groups1; reflexivity. }
  (* the second end marker *)
  assert (H2 : annotations_loop re_match interictal onsets (map snd m2a)
                 (0 + length (map snd m1)) (E1 ++ [[fst b; fst e]])
               = Ok (E1 ++ [[fst b; fst e; fst e2]])).
  { pose proof (loop_lone_end re_match interictal m2a (map fst m1)
                  (map fst m2b) E1 [fst b; fst e] e2 F2a Hbe2 Hee2) as H.
    rewrite length_map in H. rewrite length_map. exact H. }
  (* the groups after it *)
  assert (H3 : annotations_loop re_match interictal onsets (map snd m2b)
                 (0 + length (map snd m1) + length (map snd m2a))
                 (E1 ++ [[fst b; fst e; fst e2]])
               = Ok (E1 ++ (match groups2 with
                            | [] => [[fst b; fst e; fst e2]]
                            | _ => []
                            end)
                     ++ map (fun '(bs, b, e) => [fst b; fst e]) groups2)).
  { pose proof (proj1 (loop_groups re_match interictal m2b)
                  (map fst m1 ++ map fst m2a) []
                  (E1 ++ [[fst b; fst e; fst e2]]) groups2 F2b Hok2) as H.
    rewrite app_nil_r, <- app_assoc, length_app, !length_map in H.
    rewrite !length_map. unfold onsets. cbn [Nat.add]. rewrite H.
    f_equal. destruct groups2 as [|g groups2].
    - cbn [map]. rewrite !app_nil_r. reflexivity.
    - rewrite last_last, removelast_last, length_app.
      cbn [length Nat.eqb negb app].
      destruct (Nat.ltb_spec 0 (length E1 + 1)); [reflexivity|lia]. }
  rewrite loop_app, H1. cbn [bind]. rewrite loop_app, H2. cbn [bind].
  rewrite H3. cbn [bind].
  destruct (events_length_complete
              (E1 ++ (match groups2 with
                      | [] => [[fst b; fst e; fst e2]]
                      | _ => []
                      end)
               ++ map (fun '(bs, b, e) => [fst b; fst e]) groups2))
    as [ds Hds].
  { apply Forall_app. split; [|apply Forall_app; split].
    - apply Forall_forall. intros ev Hev. apply in_map_iff in Hev.
      destruct Hev as ([[bs0 b0] e0] & <- & _). cbn. lia.
    - destruct groups2; repeat constructor.
    - apply Forall_forall. intros ev Hev. apply in_map_iff in Hev.
      destruct Hev as ([[bs0 b0] e0] & <- & _). cbn. lia. }
  rewrite Hds. reflexivity.
Qed.

(** ** Seizure events at concrete inputs *)

Lemma remark_is_no_marker :
  Forall (fun t => is_begin re_match_ascii false t = false /\
                   is_end re_match_ascii false t = false)
    ["opmerking"%string].
Proof. repeat constructor. Qed.

Lemma end_marker_before_any_begin_raises_witness :
  Forall (fun t => is_begin re_match_ascii false t = false /\
                   is_end re_match_ascii false t = false)
    ["opmerking"%string] /\
  is_begin re_match_ascii false "einde_aanval" = false /\
  is_end re_match_ascii false "einde_aanval" = true /\
  load_annotations re_match_ascii
    ([12%Q; 25%Q], [0%Q; 0%Q], ["opmerking"%string; "einde_aanval"%string])
    false
  = Raise IndexError.
Proof.
  split; [exact remark_is_no_marker|]. split; [reflexivity|].
  split; [reflexivity|].
  exact (end_marker_before_any_begin_raises re_match_ascii false
           [12%Q; 25%Q] [0%Q; 0%Q] ["opmerking"%string] []
           "einde_aanval" remark_is_no_marker eq_refl eq_refl).
Defined.

Lemma unfinished_event_raises_witness :
  is_begin re_match_ascii false "begin_aanval" = true /\
  Forall (fun t => is_begin re_match_ascii false t = false /\
                   is_end re_match_ascii false t = false)
    ["opmerking"%string] /\
  load_annotations re_match_ascii
    ([10%Q; 12%Q], [0%Q; 0%Q], ["begin_aanval"%string; "opmerking"%string])
    false
  = Raise IndexError.
Proof.
  split; [reflexivity|]. split; [exact remark_is_no_marker|].
  exact (unfinished_event_raises re_match_ascii false
           [10%Q; 12%Q] [0%Q; 0%Q] [] ["opmerking"%string]
           "begin_aanval" eq_refl remark_is_no_marker).
Defined.

Lemma one_seizure_group :
  Forall (fun '(bs, b, e) =>
            Forall (fun m => is_begin re_match_ascii false (snd m) = true)
              (b :: bs) /\
            is_begin re_match_ascii false (snd e) = false /\
            is_end re_match_ascii false (snd e) = true)
    [([], (10%Q, "begin_aanval"%string), (25%Q, "einde_aanval"%string))].
Proof. repeat constructor. Qed.

Lemma paired_markers_give_events_witness :
  filter (fun m => is_begin re_match_ascii false (snd m)
                   || is_end re_match_ascii false (snd m)) seizure_marks
  = flat_map (fun '(bs, b, e) => bs ++ [b; e])
      [([], (10%Q, "begin_aanval"%string), (25%Q, "einde_aanval"%string))] /\
  load_annotations re_match_ascii
    (map fst seizure_marks, [0%Q; 0%Q; 0%Q], map snd seizure_marks) false
  = Ok [[10%Q; 25%Q]].
Proof.
  split; [reflexivity|].
  exact (paired_markers_give_events re_match_ascii false seizure_marks
           [0%Q; 0%Q; 0%Q]
           [([], (10%Q, "begin_aanval"%string),
             (25%Q, "einde_aanval"%string))]
           eq_refl one_seizure_group).
Defined.

Lemma one_absence_group :
  Forall (fun '(bs, b, e) =>
            Forall (fun m => is_begin re_match_ascii false (snd m) = true)
              (b :: bs) /\
            is_begin re_match_ascii false (snd e) = false /\
            is_end re_match_ascii false (snd e) = true)
    [([], (40%Q, "begin_absence"%string), (50%Q, "einde_absence"%string))].
Proof. repeat constructor. Qed.

Lemma second_end_marker_drops_event_witness :
  filter (fun m => is_begin re_match_ascii false (snd m)
                   || is_end re_match_ascii false (snd m)) doubled_end_marks
  = flat_map (fun '(bs, b, e) => bs ++ [b; e]) []
    ++ (10%Q, "begin_aanval"%string) :: (25%Q, "einde_aanval"%string)
       :: (26%Q, "Einde_Aanval"%string)
       :: flat_map (fun '(bs, b, e) => bs ++ [b; e])
            [([], (40%Q, "begin_absence"%string),
              (50%Q, "einde_absence"%string))] /\
  load_annotations re_match_ascii
    (map fst doubled_end_marks, [], map snd doubled_end_marks) false
  = Ok [[40%Q; 50%Q]].
Proof.
  split; [reflexivity|].
  exact (second_end_marker_drops_event re_match_ascii false
           doubled_end_marks [] []
           [([], (40%Q, "begin_absence"%string),
             (50%Q, "einde_absence"%string))]
           (10%Q, "begin_aanval"%string) (25%Q, "einde_aanval"%string)
           (26%Q, "Einde_Aanval"%string)
           eq_refl (Forall_nil _) one_absence_group
           eq_refl eq_refl eq_refl eq_refl eq_refl).
Defined.
